(** * OTP lifecycle of the e-mail verification server

    A shallow embedding of the OTP handlers of [server.js]
    ([generateOTP], [POST /api/send-otp], [POST /api/verify-otp]) and of
    the Render deployment variant kept in [public/script.js], together
    with the properties of the OTP store they maintain.

    [server.js] goes on with two further copies of the application: a
    minimal one that keeps no attempts counter, and one that validates
    the request with Joi and then verifies exactly as the first copy
    does.  The first copy is embedded at top level, the other two in
    the modules [Minimal] and [Validated], the Render variant in
    [Render] and the functions of the page script in [Page].

    The handlers are state passing functions over the [otpStore] map.
    The fields [email] and [otp] of a request body are strings, as the
    page script sends them.
    Everything a handler reads from its surroundings (clock, entropy,
    SMTP state, environment variables) is gathered in a record that is
    passed explicitly. *)

From Stdlib Require Import ZArith NArith List Ascii String Lia Bool.
From Stdlib.Strings Require Import Byte.
From stdpp Require Import gmap list fin_maps.
Import ListNotations.

Local Open Scope Z_scope.

(** ** JavaScript strings

    A JavaScript string is a sequence of UTF-16 code units; [===] on
    strings and the key equality of [Map] compare these sequences. *)

Abbreviation code_unit := N (only parsing).
Abbreviation jsstring := (list N) (only parsing).

(** Code units of an ASCII literal. *)
Definition js (s : string) : jsstring :=
  map N_of_ascii (list_ascii_of_string s).

(** [!s] for a string: only the empty string is falsy. *)
Definition falsy (s : jsstring) : bool :=
  match s with
  | [] => true
  | _ :: _ => false
  end.

Definition is_digit (c : code_unit) : bool := ((48 <=? c) && (c <=? 57))%N.

Definition is_hex_digit (c : code_unit) : bool :=
  is_digit c || ((97 <=? c) && (c <=? 102))%N.

(** ** [Number.prototype.toString] on integers *)

(** Decimal digits of a non-negative integer, most significant first;
    [fuel] bounds the number of digits produced. *)
Fixpoint digits (fuel : nat) (n : Z) (acc : jsstring) : jsstring :=
  match fuel with
  | O => acc
  | S fuel' =>
      let acc' := Z.to_N (48 + n mod 10) :: acc in
      if n <? 10 then acc' else digits fuel' (n / 10) acc'
  end.

Definition toString (n : Z) : jsstring :=
  if n <? 0
  then 45%N :: digits (S (Z.to_nat (Z.log2 (- n)))) (- n) []
  else digits (S (Z.to_nat (Z.log2 n))) n [].

(** ** Node's [crypto] primitives

    [crypto.randomInt(min, max)] returns an integer [n] with
    [min <= n < max]: the lower bound is inclusive, the upper bound is
    exclusive.  The raw random draw is an argument. *)
Definition randomInt (min max : Z) (draw : Z) : Z :=
  min + draw mod (max - min).

(** [crypto.randomBytes(size)]: [size] bytes read from the entropy
    source. *)
Definition randomBytes (size : nat) (src : nat -> byte) : list byte :=
  map src (seq 0 size).

Definition hex_digit (n : N) : code_unit :=
  (if n <? 10 then 48 + n else 87 + n)%N.

(** [Buffer.prototype.toString('hex')]: two lower-case hexadecimal
    digits per byte. *)
Definition hex (bs : list byte) : jsstring :=
  flat_map (fun b => let n := Byte.to_N b in
                     [hex_digit (n / 16); hex_digit (n mod 16)]%N) bs.

(** ** Regular expressions (matching a whole string) *)

Inductive regex : Type :=
| Void : regex
| Eps : regex
| Class : (code_unit -> bool) -> regex
| Cat : regex -> regex -> regex
| Alt : regex -> regex -> regex
| Star : regex -> regex.

Definition Plus (r : regex) : regex := Cat r (Star r).

Fixpoint nullable (r : regex) : bool :=
  match r with
  | Void => false
  | Eps => true
  | Class _ => false
  | Cat r1 r2 => nullable r1 && nullable r2
  | Alt r1 r2 => nullable r1 || nullable r2
  | Star _ => true
  end.

Fixpoint deriv (c : code_unit) (r : regex) : regex :=
  match r with
  | Void => Void
  | Eps => Void
  | Class p => if p c then Eps else Void
  | Cat r1 r2 =>
      if nullable r1
      then Alt (Cat (deriv c r1) r2) (deriv c r2)
      else Cat (deriv c r1) r2
  | Alt r1 r2 => Alt (deriv c r1) (deriv c r2)
  | Star r1 => Cat (deriv c r1) (Star r1)
  end.

Fixpoint regex_test (r : regex) (s : jsstring) : bool :=
  match s with
  | [] => nullable r
  | c :: s' => regex_test (deriv c r) s'
  end.

(** The class [\s] of ECMAScript: white space and line terminators. *)
Definition is_space (c : code_unit) : bool :=
  ((9 <=? c) && (c <=? 13)
   || (c =? 32) || (c =? 160) || (c =? 5760)
   || (8192 <=? c) && (c <=? 8202)
   || (c =? 8232) || (c =? 8233) || (c =? 8239) || (c =? 8287)
   || (c =? 12288) || (c =? 65279))%N.

(** [[^\s@]] *)
Definition not_space_at (c : code_unit) : bool :=
  negb (is_space c) && negb (c =? 64)%N.

Definition chr (k : code_unit) : regex := Class (fun c => (c =? k)%N).

(** [/^[^\s@]+@[^\s@]+\.[^\s@]+$/] *)
Definition emailRegex : regex :=
  Cat (Plus (Class not_space_at))
      (Cat (chr 64)
           (Cat (Plus (Class not_space_at))
                (Cat (chr 46) (Plus (Class not_space_at))))).

(** ** The OTP store *)

Record OtpRecord : Type := {
  otp : jsstring;
  expiresAt : Z;
  attempts : Z
}.

(** [storedData.attempts += 1] *)
Definition bump (r : OtpRecord) : OtpRecord :=
  {| otp := otp r; expiresAt := expiresAt r; attempts := attempts r + 1 |}.

(** What one request reads from outside the store. *)
Record Env : Type := {
  now : Z;                  (* Date.now() *)
  int_draw : Z;             (* entropy behind crypto.randomInt *)
  byte_draw : nat -> byte;  (* entropy behind crypto.randomBytes *)
  smtp_ready : bool;        (* smtpEnabled && transporter *)
  mail_delivered : bool;    (* transporter.sendMail resolved *)
  production : bool         (* NODE_ENV === 'production' *)
}.

(** [generateOTP] *)
Definition generateOTP (draw : Z) : jsstring :=
  toString (randomInt 100000 999999 draw).

(** Responses of [POST /api/send-otp]. *)
Inductive send_response : Type :=
| SendRequired                 (* 400, 'Email is required' *)
| SendInvalidFormat            (* 400, 'Invalid email format' *)
| SendOk (emailSent : bool) (debug_otp : option jsstring).  (* 200 *)

(** [POST /api/send-otp] *)
Definition send_otp (w : Env) (email : jsstring) (st : gmap jsstring OtpRecord)
  : send_response * gmap jsstring OtpRecord :=
  if falsy email then (SendRequired, st)
  else if negb (regex_test emailRegex email) then (SendInvalidFormat, st)
  else
    let code := generateOTP (int_draw w) in
    let expires := now w + 5 * 60 * 1000 in
    let st' := <[email := {| otp := code; expiresAt := expires; attempts := 0 |}]> st in
    let emailSent := smtp_ready w && mail_delivered w in
    (SendOk emailSent (if production w then None else Some code), st').

(** Responses of [POST /api/verify-otp]. *)
Inductive verify_response : Type :=
| Required                     (* 400, 'Email and OTP are required' *)
| NotFound                     (* 400, 'No OTP found for this email...' *)
| Expired                      (* 400, 'OTP has expired...' *)
| AttemptsExhausted            (* 400, 'Maximum OTP attempts exceeded...' *)
| Invalid (remainingAttempts : Z)   (* 400, 'Invalid OTP' *)
| Success (token : jsstring).  (* 200, success: true *)

(** [POST /api/verify-otp] *)
Definition verify_otp (w : Env) (email body_otp : jsstring)
    (st : gmap jsstring OtpRecord)
  : verify_response * gmap jsstring OtpRecord :=
  if falsy email || falsy body_otp then (Required, st)
  else
    match st !! email with
    | None => (NotFound, st)
    | Some storedData =>
        if now w >? expiresAt storedData then (Expired, delete email st)
        else if attempts storedData >=? 3
        then (AttemptsExhausted, delete email st)
        else
          let storedData := bump storedData in
          let st := <[email := storedData]> st in
          if bool_decide (otp storedData = body_otp)
          then (Success (hex (randomBytes 32 (byte_draw w))), delete email st)
          else
            let remainingAttempts := 3 - attempts storedData in
            (Invalid (if remainingAttempts >? 0 then remainingAttempts else 0), st)
    end.

(** ** The Render deployment variant ([public/script.js])

    Same store, but the attempt limit is enforced inside the failing
    comparison itself, no proof token is issued and the request fields
    are not checked for presence. *)

Module Render.

Inductive mail_result : Type :=
| Delivered | EAUTH | ETIMEDOUT | MailError.

Record Env : Type := {
  now : Z;                 (* Date.now() *)
  int_draw : Z;            (* entropy behind crypto.randomInt *)
  limited : bool;          (* otpLimiter rejects the request *)
  transporter : bool;      (* transporter is not null *)
  mail : mail_result;      (* outcome of transporter.sendMail *)
  development : bool       (* NODE_ENV === 'development' *)
}.

Inductive send_response : Type :=
| TooManyRequests            (* 429, otpLimiter *)
| SendRequired               (* 400, 'Email is required' *)
| NotConfigured              (* 503, 'Email service not configured...' *)
| SendOk (debug_otp : option jsstring)   (* 200 *)
| AuthFailed                 (* 500, error.code === 'EAUTH' *)
| MailTimeout                (* 500, error.code === 'ETIMEDOUT' *)
| SendFailed.                (* 500, 'Failed to send OTP...' *)

(** [POST /api/send-otp] behind [otpLimiter] *)
Definition send_otp (w : Env) (email : jsstring)
    (st : gmap jsstring OtpRecord)
  : send_response * gmap jsstring OtpRecord :=
  if limited w then (TooManyRequests, st)
  else if falsy email then (SendRequired, st)
  else if negb (transporter w) then (NotConfigured, st)
  else
    let code := generateOTP (int_draw w) in
    let st' := <[email := {| otp := code;
                             expiresAt := now w + 5 * 60 * 1000;
                             attempts := 0 |}]> st in
    match mail w with
    | Delivered => (SendOk (if development w then Some code else None), st')
    | EAUTH => (AuthFailed, st')
    | ETIMEDOUT => (MailTimeout, st')
    | MailError => (SendFailed, st')
    end.

Inductive verify_response : Type :=
| NotFound                   (* 400, 'OTP not found or expired' *)
| Expired                    (* 400, 'OTP expired' *)
| Success                    (* 200, success: true *)
| TooManyAttempts            (* 400, 'Too many failed attempts...' *)
| Invalid (attempts : Z).    (* 400, 'Invalid OTP', attempts so far *)

(** [POST /api/verify-otp] *)
Definition verify_otp (w : Env) (email body_otp : jsstring)
    (st : gmap jsstring OtpRecord)
  : verify_response * gmap jsstring OtpRecord :=
  match st !! email with
  | None => (NotFound, st)
  | Some storedData =>
      if now w >? expiresAt storedData then (Expired, delete email st)
      else if bool_decide (otp storedData = body_otp)
      then (Success, delete email st)
      else
        let storedData := bump storedData in
        let st := <[email := storedData]> st in
        if attempts storedData >=? 3
        then (TooManyAttempts, delete email st)
        else (Invalid (attempts storedData), st)
  end.

End Render.

(** ** Request sequences

    The server handles one request at a time; a reachable store is what
    a sequence of requests leaves behind, starting from the empty map
    created at start-up. *)

Inductive request : Type :=
| SendOtp (w : Env) (email : jsstring)
| VerifyOtp (w : Env) (email body_otp : jsstring).

Definition handle (st : gmap jsstring OtpRecord) (q : request)
  : gmap jsstring OtpRecord :=
  match q with
  | SendOtp w email => snd (send_otp w email st)
  | VerifyOtp w email body_otp => snd (verify_otp w email body_otp st)
  end.

Definition run (qs : list request) : gmap jsstring OtpRecord :=
  fold_left handle qs ∅.

Inductive render_request : Type :=
| RenderSendOtp (w : Render.Env) (email : jsstring)
| RenderVerifyOtp (w : Render.Env) (email body_otp : jsstring).

Definition render_handle (st : gmap jsstring OtpRecord) (q : render_request)
  : gmap jsstring OtpRecord :=
  match q with
  | RenderSendOtp w email => snd (Render.send_otp w email st)
  | RenderVerifyOtp w email body_otp => snd (Render.verify_otp w email body_otp st)
  end.

Definition render_run (qs : list render_request) : gmap jsstring OtpRecord :=
  fold_left render_handle qs ∅.

(** Every stored record has its failed-attempt counter within [lo, hi]. *)
Definition attempts_within (lo hi : Z) (st : gmap jsstring OtpRecord) : Prop :=
  forall email r, st !! email = Some r -> lo <= attempts r <= hi.

(** The answers with which [POST /api/verify-otp] deletes the record. *)
Definition terminal (resp : verify_response) : bool :=
  match resp with
  | Expired | AttemptsExhausted | Success _ => true
  | Required | NotFound | Invalid _ => false
  end.

(** ** Sample data used to exercise the statements *)

Definition alice : jsstring := js "a@example.com".
Definition bob : jsstring := js "b@example.com".

Definition env_at (t draw : Z) : Env :=
  {| now := t; int_draw := draw; byte_draw := fun _ => x2a;
     smtp_ready := false; mail_delivered := false; production := false |}.

Definition render_env_at (t draw : Z) : Render.Env :=
  {| Render.now := t; Render.int_draw := draw; Render.limited := false;
     Render.transporter := true; Render.mail := Render.Delivered;
     Render.development := false |}.

(** A record holding code 123456 that expires at time 300000. *)
Definition record_with (a : Z) : OtpRecord :=
  {| otp := js "123456"; expiresAt := 300000; attempts := a |}.

Definition store_with (a : Z) : gmap jsstring OtpRecord :=
  {[ alice := record_with a ]}.

(** ** What a regular expression matches *)

Inductive matches : regex -> jsstring -> Prop :=
| MEps : matches Eps []
| MClass (p : code_unit -> bool) (c : code_unit) :
    p c = true -> matches (Class p) [c]
| MCat (r1 r2 : regex) (s1 s2 : jsstring) :
    matches r1 s1 -> matches r2 s2 -> matches (Cat r1 r2) (s1 ++ s2)
| MAltL (r1 r2 : regex) (s : jsstring) :
    matches r1 s -> matches (Alt r1 r2) s
| MAltR (r1 r2 : regex) (s : jsstring) :
    matches r2 s -> matches (Alt r1 r2) s
| MStarNil (r : regex) : matches (Star r) []
| MStarApp (r : regex) (s1 s2 : jsstring) :
    matches r s1 -> matches (Star r) s2 -> matches (Star r) (s1 ++ s2).

(** ** The sequence of answers of the server *)

Inductive answer : Type :=
| SendAnswer (email : jsstring) (a : send_response)
| VerifyAnswer (email : jsstring) (a : verify_response).

Definition serve1 (st : gmap jsstring OtpRecord) (q : request)
  : answer * gmap jsstring OtpRecord :=
  match q with
  | SendOtp w email =>
      (SendAnswer email (fst (send_otp w email st)), snd (send_otp w email st))
  | VerifyOtp w email body_otp =>
      (VerifyAnswer email (fst (verify_otp w email body_otp st)),
       snd (verify_otp w email body_otp st))
  end.

Fixpoint serve (qs : list request) (st : gmap jsstring OtpRecord)
  : list answer * gmap jsstring OtpRecord :=
  match qs with
  | [] => ([], st)
  | q :: qs' =>
      let '(a, st') := serve1 st q in
      let '(answers, st'') := serve qs' st' in
      (a :: answers, st'')
  end.

Definition is_issue (e : jsstring) (a : answer) : bool :=
  match a with
  | SendAnswer email (SendOk _ _) => bool_decide (email = e)
  | _ => false
  end.

Definition is_success (e : jsstring) (a : answer) : bool :=
  match a with
  | VerifyAnswer email (Success _) => bool_decide (email = e)
  | _ => false
  end.

Definition is_invalid (e : jsstring) (a : answer) : bool :=
  match a with
  | VerifyAnswer email (Invalid _) => bool_decide (email = e)
  | _ => false
  end.

Definition count (f : answer -> bool) (l : list answer) : Z :=
  Z.of_nat (length (List.filter f l)).

(** Comparisons a stored record still allows. *)
Definition budget (e : jsstring) (st : gmap jsstring OtpRecord) : Z :=
  match st !! e with
  | Some r => Z.max 0 (3 - attempts r)
  | None => 0
  end.

Definition holds_record (e : jsstring) (st : gmap jsstring OtpRecord) : Z :=
  match st !! e with
  | Some _ => 1
  | None => 0
  end.

(** The request of a [request], if it names an identity. *)
Definition request_email (q : request) : jsstring :=
  match q with
  | SendOtp _ email => email
  | VerifyOtp _ email _ => email
  end.

(** The [remainingAttempts] property of the JSON body of an answer of
    [POST /api/verify-otp]; only the 'Invalid OTP' body has one. *)
Definition remainingAttempts_field (a : verify_response) : option Z :=
  match a with
  | Invalid n => Some n
  | _ => None
  end.

(** ** SMTP start-up ([initializeSMTP]) *)

Record smtp_config : Type := {
  name : string;
  host : string;
  port : Z;
  secure : bool;
  auth_user : jsstring;
  auth_pass : jsstring;
  rejectUnauthorized : bool;
  connectionTimeout : Z
}.

(** The three configurations that are tried, in this order. *)
Definition configs (user pass : jsstring) : list smtp_config :=
  [ {| name := "Port 587 (TLS)"; host := "smtp.gmail.com"; port := 587;
       secure := false; auth_user := user; auth_pass := pass;
       rejectUnauthorized := false; connectionTimeout := 10000 |};
    {| name := "Port 465 (SSL)"; host := "smtp.gmail.com"; port := 465;
       secure := true; auth_user := user; auth_pass := pass;
       rejectUnauthorized := false; connectionTimeout := 10000 |};
    {| name := "Port 25"; host := "smtp.gmail.com"; port := 25;
       secure := false; auth_user := user; auth_pass := pass;
       rejectUnauthorized := false; connectionTimeout := 10000 |} ].

(** [!process.env.X]: the variable is unset or empty. *)
Definition unset (v : option jsstring) : bool :=
  match v with
  | None => true
  | Some s => falsy s
  end.

(** The loop over [configs]; [verify c] tells whether
    [transporter.verify()] resolves for the transport made from [c].
    The result is the final [(transporter, smtpEnabled)]. *)
Fixpoint try_configs (verify : smtp_config -> bool) (cs : list smtp_config)
  : option smtp_config * bool :=
  match cs with
  | [] => (None, false)
  | c :: cs' => if verify c then (Some c, true) else try_configs verify cs'
  end.

Definition initializeSMTP (GMAIL_USER GMAIL_APP_PASSWORD : option jsstring)
    (verify : smtp_config -> bool) : option smtp_config * bool :=
  if unset GMAIL_USER || unset GMAIL_APP_PASSWORD then (None, false)
  else try_configs verify
         (configs (default [] GMAIL_USER) (default [] GMAIL_APP_PASSWORD)).

(** ** The copy of the server without an attempts counter
    ([server.js], second application) *)

Module Minimal.

Record OtpEntry : Type := {
  otp : jsstring;
  expiresAt : Z
}.

Record Env : Type := {
  now : Z;                 (* Date.now() *)
  int_draw : Z;            (* entropy behind crypto.randomInt *)
  mail_delivered : bool    (* transporter.sendMail resolved *)
}.

Inductive send_response : Type :=
| SendRequired               (* 400, 'Email is required' *)
| SendOk                     (* 200, 'OTP sent successfully' *)
| SendFailed.                (* 500, 'Failed to send OTP' *)

(** [POST /send-otp] *)
Definition send_otp (w : Env) (email : jsstring) (st : gmap jsstring OtpEntry)
  : send_response * gmap jsstring OtpEntry :=
  if falsy email then (SendRequired, st)
  else
    let code := generateOTP (int_draw w) in
    let st' := <[email := {| otp := code;
                             expiresAt := now w + 5 * 60 * 1000 |}]> st in
    if mail_delivered w then (SendOk, st') else (SendFailed, st').

Inductive verify_response : Type :=
| Required                   (* 400, 'Email and OTP are required' *)
| NotFound                   (* 400, 'No OTP found for this email or OTP expired' *)
| Expired                    (* 400, 'OTP has expired' *)
| Success                    (* 200, success: true *)
| Invalid.                   (* 400, 'Invalid OTP' *)

(** [POST /verify-otp] *)
Definition verify_otp (w : Env) (email body_otp : jsstring)
    (st : gmap jsstring OtpEntry)
  : verify_response * gmap jsstring OtpEntry :=
  if falsy email || falsy body_otp then (Required, st)
  else
    match st !! email with
    | None => (NotFound, st)
    | Some storedData =>
        if now w >? expiresAt storedData then (Expired, delete email st)
        else if bool_decide (otp storedData = body_otp)
        then (Success, delete email st)
        else (Invalid, st)
    end.

(** Verify calls for one identity, one after the other. *)
Fixpoint verify_each (calls : list (Env * jsstring)) (email : jsstring)
    (st : gmap jsstring OtpEntry)
  : list verify_response * gmap jsstring OtpEntry :=
  match calls with
  | [] => ([], st)
  | (w, body_otp) :: calls' =>
      let '(a, st') := verify_otp w email body_otp st in
      let '(answers, st'') := verify_each calls' email st' in
      (a :: answers, st'')
  end.

End Minimal.

(** ** The copy of the server that validates with Joi
    ([server.js], third application) *)

(** [/^\d{6}$/] *)
Definition otpPattern : regex :=
  let d := Class is_digit in
  Cat d (Cat d (Cat d (Cat d (Cat d d)))).

Module Validated.

Section Joi.

(** The rule [Joi.string().email()] on a non-empty string. *)
Variable string_email : jsstring -> bool.

(** [emailSchema.validate]; a Joi string must not be empty. *)
Definition emailSchema (email : jsstring) : bool :=
  negb (falsy email) && string_email email.

(** [otpSchema.validate] *)
Definition otpSchema (email body_otp : jsstring) : bool :=
  emailSchema email && regex_test otpPattern body_otp.

Record Env : Type := {
  now : Z;                  (* Date.now() *)
  int_draw : Z;             (* entropy behind crypto.randomInt *)
  byte_draw : nat -> byte;  (* entropy behind crypto.randomBytes *)
  limited : bool;           (* otpLimiter rejects the request *)
  mail : Render.mail_result (* outcome of transporter.sendMail *)
}.

Inductive send_response : Type :=
| TooManyRequests            (* 429, otpLimiter *)
| SendValidationFailed       (* 400, 'Validation failed' *)
| SendOk                     (* 200, 'OTP sent successfully' *)
| AuthFailed                 (* 500, error.code === 'EAUTH' *)
| SendFailed.                (* 500, 'Failed to send OTP...' *)

(** [POST /api/send-otp] behind [otpLimiter] *)
Definition send_otp (w : Env) (email : jsstring)
    (st : gmap jsstring OtpRecord)
  : send_response * gmap jsstring OtpRecord :=
  if limited w then (TooManyRequests, st)
  else if negb (emailSchema email) then (SendValidationFailed, st)
  else
    let code := generateOTP (int_draw w) in
    let expires := now w + 5 * 60 * 1000 in
    let st' := <[email := {| otp := code; expiresAt := expires;
                             attempts := 0 |}]> st in
    match mail w with
    | Render.Delivered => (SendOk, st')
    | Render.EAUTH => (AuthFailed, st')
    | _ => (SendFailed, st')
    end.

Inductive verify_response : Type :=
| ValidationFailed           (* 400, 'Validation failed' *)
| NotFound                   (* 400, 'No OTP found for this email or OTP has expired' *)
| Expired                    (* 400, 'OTP has expired...' *)
| AttemptsExhausted          (* 400, 'Maximum OTP attempts exceeded...' *)
| Invalid (remainingAttempts : Z)   (* 400, 'Invalid OTP' *)
| Success (token : jsstring).       (* 200, success: true *)

(** [POST /api/verify-otp] *)
Definition verify_otp (w : Env) (email body_otp : jsstring)
    (st : gmap jsstring OtpRecord)
  : verify_response * gmap jsstring OtpRecord :=
  if negb (otpSchema email body_otp) then (ValidationFailed, st)
  else
    match st !! email with
    | None => (NotFound, st)
    | Some storedData =>
        if now w >? expiresAt storedData then (Expired, delete email st)
        else if attempts storedData >=? 3
        then (AttemptsExhausted, delete email st)
        else
          let storedData := bump storedData in
          let st := <[email := storedData]> st in
          if bool_decide (otp storedData = body_otp)
          then (Success (hex (randomBytes 32 (byte_draw w))), delete email st)
          else
            let remainingAttempts := 3 - attempts storedData in
            (Invalid (if remainingAttempts >? 0 then remainingAttempts else 0), st)
    end.

End Joi.

End Validated.

(** The answer of the first application that an answer of the third
    one stands for; 'Validation failed' has no counterpart. *)
Definition as_server (a : Validated.verify_response) : option verify_response :=
  match a with
  | Validated.ValidationFailed => None
  | Validated.NotFound => Some NotFound
  | Validated.Expired => Some Expired
  | Validated.AttemptsExhausted => Some AttemptsExhausted
  | Validated.Invalid n => Some (Invalid n)
  | Validated.Success t => Some (Success t)
  end.

(** ** The page script ([public/script.js]) *)

Module Page.

(** [s.replace(/\D/g, '')] *)
Definition strip_non_digits (s : jsstring) : jsstring :=
  List.filter is_digit s.

(** [s.substring(0, n)] *)
Definition substring0 (n : nat) (s : jsstring) : jsstring := firstn n s.

(** [formatOTP]: the new value of the input, and whether it is blurred. *)
Definition formatOTP (value : jsstring) : jsstring * bool :=
  let value := strip_non_digits value in
  let value := if (6 <? length value)%nat then substring0 6 value else value in
  (value, (length value =? 6)%nat).

Inductive paste : Type :=
| Pasted (otp : jsstring)    (* 'OTP pasted from clipboard!' *)
| NoValidOtp                 (* 'No valid OTP found in clipboard' *)
| ClipboardFailed.           (* 'Failed to access clipboard' *)

(** [copyOTP]; [None] when [navigator.clipboard.readText] rejects. *)
Definition copyOTP (clipboard : option jsstring) : paste :=
  match clipboard with
  | None => ClipboardFailed
  | Some text =>
      let otp := substring0 6 (strip_non_digits text) in
      if (length otp =? 6)%nat then Pasted otp else NoValidOtp
  end.

Inductive colour : Type :=
| Green      (* #28a745 *)
| Amber      (* #ffc107 *)
| Red.       (* #dc3545 *)

Inductive counter : Type :=
| AttemptsRemaining (remaining : Z) (c : colour)
| NoAttemptsRemaining (c : colour).

(** [updateAttemptsCounter]; [None] is [undefined]. *)
Definition updateAttemptsCounter (remaining : option Z) : counter :=
  match remaining with
  | Some n =>
      if n >? 0 then AttemptsRemaining n (if n >? 1 then Green else Amber)
      else NoAttemptsRemaining Red
  | None => NoAttemptsRemaining Red
  end.

Fixpoint trimStart (s : jsstring) : jsstring :=
  match s with
  | [] => []
  | c :: s' => if is_space c then trimStart s' else s
  end.

(** [s.trim()] *)
Definition trim (s : jsstring) : jsstring :=
  rev (trimStart (rev (trimStart s))).

Inductive send_action : Type :=
| EnterEmail                 (* 'Please enter your email address' *)
| EnterValidEmail            (* 'Please enter a valid email address' *)
| PostSend (email : jsstring).      (* fetch('/api/send-otp', ...) *)

(** [sendOTP], up to the request it posts. *)
Definition sendOTP (field : jsstring) : send_action :=
  let email := trim field in
  if falsy email then EnterEmail
  else if negb (regex_test emailRegex email) then EnterValidEmail
  else PostSend email.

Inductive verify_action : Type :=
| VerifyEnterEmail           (* 'Please enter your email address' *)
| EnterValidOtp              (* 'Please enter a valid 6-digit OTP' *)
| PostVerify (email otp : jsstring).   (* fetch('/api/verify-otp', ...) *)

(** [verifyOTP], up to the request it posts. *)
Definition verifyOTP (email_field otp_field : jsstring) : verify_action :=
  let email := trim email_field in
  let otp := otp_field in
  if falsy email then VerifyEnterEmail
  else if falsy otp || negb (length otp =? 6)%nat then EnterValidOtp
  else PostVerify email otp.

End Page.

(** What [verifyOTP] does with the answer of the first application: the
    success modal on a 200 answer, otherwise the error message and the
    attempts counter, fed with [data.remainingAttempts]. *)
Inductive page_outcome : Type :=
| SuccessModal (token : jsstring)
| ErrorShown (c : Page.counter).

Definition page_after_verify (a : verify_response) : page_outcome :=
  match a with
  | Success token => SuccessModal token
  | _ => ErrorShown (Page.updateAttemptsCounter (remainingAttempts_field a))
  end.

(** A store whose records all sit under an accepted address, hold a
    generated code and have an attempts counter from 0 to 3. *)
Definition well_formed (st : gmap jsstring OtpRecord) : Prop :=
  forall email r,
    st !! email = Some r ->
    regex_test emailRegex email = true /\
    (exists draw, otp r = generateOTP draw) /\
    0 <= attempts r <= 3.

(** * Properties *)

(** ** Decimal rendering *)

Lemma digits_fuel (f : nat) :
  forall n acc f',
    0 <= n < 10 ^ Z.of_nat (S f) -> (S f <= f')%nat ->
    digits f' n acc = digits (S f) n acc.
Proof.
  induction f as [|f IH]; intros n acc f' Hn Hf.
  - destruct f' as [|f']; [lia|]. cbn [digits].
    change (10 ^ Z.of_nat 1) with 10 in Hn.
    destruct (Z.ltb_spec n 10); [reflexivity|lia].
  - destruct f' as [|f']; [lia|]. cbn [digits].
    destruct (Z.ltb_spec n 10) as [|Hge]; [reflexivity|].
    apply IH; [|lia].
    rewrite Nat2Z.inj_succ, Z.pow_succ_r in Hn by lia.
    split; [apply Z.div_pos; lia|].
    apply Z.div_lt_upper_bound; lia.
Qed.

Lemma toString_fuel (n : Z) (f : nat) :
  0 <= n -> (S (Z.to_nat (Z.log2 n)) <= f)%nat ->
  digits f n [] = toString n.
Proof.
  intros Hn Hf. unfold toString.
  destruct (Z.ltb_spec n 0); [lia|].
  apply digits_fuel; [|exact Hf].
  split; [exact Hn|].
  rewrite Nat2Z.inj_succ, Z2Nat.id by apply Z.log2_nonneg.
  destruct (Z.eq_dec n 0) as [->|Hnz].
  - reflexivity.
  - pose proof (Z.log2_spec n ltac:(lia)) as [_ Hlt].
    eapply Z.lt_le_trans; [exact Hlt|].
    apply Z.pow_le_mono_l. lia.
Qed.

Lemma toString_six (n : Z) :
  100000 <= n < 1000000 ->
  toString n =
    [Z.to_N (48 + n / 100000 mod 10); Z.to_N (48 + n / 10000 mod 10);
     Z.to_N (48 + n / 1000 mod 10); Z.to_N (48 + n / 100 mod 10);
     Z.to_N (48 + n / 10 mod 10); Z.to_N (48 + n mod 10)].
Proof.
  intros Hn.
  assert (Hlog : 16 <= Z.log2 n).
  { change 16 with (Z.log2 65536). apply Z.log2_le_mono. lia. }
  rewrite <- (toString_fuel n (S (Z.to_nat (Z.log2 n)))) by lia.
  rewrite (digits_fuel 5) by (change (10 ^ Z.of_nat 6) with 1000000; lia).
  cbn [digits].
  rewrite !Z.div_div by lia. cbn [Z.mul Pos.mul Pos.add].
  repeat match goal with
         | |- context [?a <? 10] =>
             destruct (Z.ltb_spec a 10);
             [ try (exfalso; Z.div_mod_to_equations; lia)
             | try (exfalso; Z.div_mod_to_equations; lia) ]
         end.
  reflexivity.
Qed.

(** ** Code generation *)

Lemma randomInt_range (min max draw : Z) :
  min < max -> min <= randomInt min max draw < max.
Proof.
  intros H. unfold randomInt.
  pose proof (Z.mod_pos_bound draw (max - min)). lia.
Qed.

Lemma randomInt_onto (min max n : Z) :
  min <= n < max -> randomInt min max (n - min) = n.
Proof.
  intros H. unfold randomInt. rewrite Z.mod_small by lia. lia.
Qed.

(** The codes [generateOTP] can return are the decimal renderings of
    the integers from 100000 up to, but not including, 999999. *)
Lemma generateOTP_outputs (s : jsstring) :
  (exists draw, generateOTP draw = s) <->
  (exists n, 100000 <= n < 999999 /\ s = toString n).
Proof.
  unfold generateOTP. split.
  - intros [draw <-]. eexists. split; [|reflexivity].
    apply randomInt_range. lia.
  - intros (n & Hn & ->). exists (n - 100000).
    rewrite randomInt_onto by lia. reflexivity.
Qed.

Lemma generateOTP_digits (draw : Z) :
  exists d5 d4 d3 d2 d1 d0 : Z,
    generateOTP draw =
      map (fun d => Z.to_N (48 + d)) [d5; d4; d3; d2; d1; d0] /\
    1 <= d5 <= 9 /\ 0 <= d4 <= 9 /\ 0 <= d3 <= 9 /\
    0 <= d2 <= 9 /\ 0 <= d1 <= 9 /\ 0 <= d0 <= 9 /\
    randomInt 100000 999999 draw =
      100000 * d5 + 10000 * d4 + 1000 * d3 + 100 * d2 + 10 * d1 + d0.
Proof.
  unfold generateOTP.
  pose proof (randomInt_range 100000 999999 draw ltac:(lia)) as Hn.
  set (n := randomInt 100000 999999 draw) in *.
  rewrite toString_six by lia.
  exists (n / 100000 mod 10), (n / 10000 mod 10), (n / 1000 mod 10),
         (n / 100 mod 10), (n / 10 mod 10), (n mod 10).
  split; [reflexivity|].
  repeat split; Z.div_mod_to_equations; lia.
Qed.

(** A generated code is six decimal digits and does not start with 0. *)
Lemma generateOTP_shape (draw : Z) :
  length (generateOTP draw) = 6%nat /\
  Forall (fun c => is_digit c = true) (generateOTP draw) /\
  (exists c s, generateOTP draw = c :: s /\ (49 <= c <= 57)%N).
Proof.
  destruct (generateOTP_digits draw)
    as (d5 & d4 & d3 & d2 & d1 & d0 & -> & H5 & H4 & H3 & H2 & H1 & H0 & _).
  split; [reflexivity|]. split.
  - cbn [map]. unfold is_digit.
    repeat constructor; apply andb_true_intro; split; apply N.leb_le; lia.
  - eexists _, _. split; [reflexivity|]. lia.
Qed.

Lemma generateOTP_nonempty (draw : Z) : generateOTP draw <> [].
Proof.
  destruct (generateOTP_shape draw) as (Hlen & _).
  intros E. rewrite E in Hlen. discriminate.
Qed.

(** ** Request fields *)

Lemma falsy_false (s : jsstring) : s <> [] -> falsy s = false.
Proof. destruct s; [congruence | reflexivity]. Qed.

Lemma email_format_nonempty (email : jsstring) :
  regex_test emailRegex email = true -> email <> [].
Proof. intros H ->. discriminate. Qed.

(** ** One step of [POST /api/verify-otp], branch by branch *)

Section VerifyStep.

Variable w : Env.
Variables email body_otp : jsstring.
Variable st : gmap jsstring OtpRecord.
Hypothesis email_present : email <> [].
Hypothesis otp_present : body_otp <> [].

Lemma verify_step_absent :
  st !! email = None ->
  verify_otp w email body_otp st = (NotFound, st).
Proof.
  intros Hst. unfold verify_otp.
  rewrite !falsy_false, Hst by assumption. reflexivity.
Qed.

Variable r : OtpRecord.
Hypothesis stored : st !! email = Some r.

Lemma verify_step_expired :
  now w > expiresAt r ->
  verify_otp w email body_otp st = (Expired, delete email st).
Proof.
  intros Hexp. unfold verify_otp.
  rewrite !falsy_false, stored by assumption. cbn [orb].
  destruct (Z.gtb_spec (now w) (expiresAt r)); [reflexivity | lia].
Qed.

Lemma verify_step_exhausted :
  now w <= expiresAt r -> attempts r >= 3 ->
  verify_otp w email body_otp st = (AttemptsExhausted, delete email st).
Proof.
  intros Hlive Hmax. unfold verify_otp.
  rewrite !falsy_false, stored by assumption. cbn [orb].
  destruct (Z.gtb_spec (now w) (expiresAt r)); [lia|].
  destruct (Z.geb_spec (attempts r) 3); [reflexivity | lia].
Qed.

Lemma verify_step_match :
  now w <= expiresAt r -> attempts r < 3 -> otp r = body_otp ->
  verify_otp w email body_otp st =
    (Success (hex (randomBytes 32 (byte_draw w))), delete email st).
Proof.
  intros Hlive Hleft Heq. unfold verify_otp.
  rewrite !falsy_false, stored by assumption. cbn [orb].
  destruct (Z.gtb_spec (now w) (expiresAt r)); [lia|].
  destruct (Z.geb_spec (attempts r) 3); [lia|].
  cbn [bump otp]. rewrite bool_decide_eq_true_2 by exact Heq.
  rewrite delete_insert_eq. reflexivity.
Qed.

Lemma verify_step_mismatch :
  now w <= expiresAt r -> attempts r < 3 -> otp r <> body_otp ->
  verify_otp w email body_otp st =
    (Invalid (2 - attempts r), <[email := bump r]> st).
Proof.
  intros Hlive Hleft Hne. unfold verify_otp.
  rewrite !falsy_false, stored by assumption. cbn [orb].
  destruct (Z.gtb_spec (now w) (expiresAt r)); [lia|].
  destruct (Z.geb_spec (attempts r) 3); [lia|].
  cbn [bump otp attempts]. rewrite bool_decide_eq_false_2 by exact Hne.
  destruct (Z.gtb_spec (3 - (attempts r + 1)) 0); do 2 f_equal; lia.
Qed.

End VerifyStep.

Lemma send_step (w : Env) (email : jsstring) (st : gmap jsstring OtpRecord) :
  regex_test emailRegex email = true ->
  send_otp w email st =
    (SendOk (smtp_ready w && mail_delivered w)
            (if production w then None else Some (generateOTP (int_draw w))),
     <[email := {| otp := generateOTP (int_draw w);
                   expiresAt := now w + 300000;
                   attempts := 0 |}]> st).
Proof.
  intros Hfmt. unfold send_otp.
  rewrite falsy_false by (apply email_format_nonempty; exact Hfmt).
  rewrite Hfmt. reflexivity.
Qed.

(** A request that is turned away leaves the store as it is. *)
Lemma send_rejected (w : Env) (email : jsstring) (st : gmap jsstring OtpRecord) :
  regex_test emailRegex email = false -> snd (send_otp w email st) = st.
Proof.
  intros Hfmt. unfold send_otp. rewrite Hfmt.
  destruct (falsy email); reflexivity.
Qed.

Lemma verify_required (w : Env) (email body_otp : jsstring)
    (st : gmap jsstring OtpRecord) :
  email = [] \/ body_otp = [] ->
  verify_otp w email body_otp st = (Required, st).
Proof.
  intros [-> | ->]; unfold verify_otp; [reflexivity|].
  destruct (falsy email); reflexivity.
Qed.

(** ** Proof tokens *)

Lemma randomBytes_length (size : nat) (src : nat -> byte) :
  length (randomBytes size src) = size.
Proof. unfold randomBytes. rewrite length_map. apply length_seq. Qed.

Lemma hex_length (bs : list byte) : length (hex bs) = (2 * length bs)%nat.
Proof.
  induction bs as [|b bs IH]; [reflexivity|].
  unfold hex in *. cbn [flat_map length app]. rewrite IH. lia.
Qed.

Lemma hex_digit_is_hex (n : N) : (n < 16)%N -> is_hex_digit (hex_digit n) = true.
Proof.
  intros Hn. unfold is_hex_digit, is_digit, hex_digit.
  destruct (N.ltb_spec n 10).
  - apply orb_true_intro. left.
    apply andb_true_intro; split; apply N.leb_le; lia.
  - apply orb_true_intro. right.
    apply andb_true_intro; split; apply N.leb_le; lia.
Qed.

Lemma hex_is_hex (bs : list byte) :
  Forall (fun c => is_hex_digit c = true) (hex bs).
Proof.
  induction bs as [|b bs IH]; [constructor|].
  unfold hex in *. cbn [flat_map app].
  pose proof (Byte.to_N_bounded b) as Hb.
  constructor; [|constructor; [|exact IH]]; apply hex_digit_is_hex.
  - apply N.Div0.div_lt_upper_bound. lia.
  - apply N.mod_lt. lia.
Qed.

(** The token of a successful verification: 32 random bytes written
    as 64 hexadecimal digits. *)
Lemma token_shape (src : nat -> byte) :
  length (hex (randomBytes 32 src)) = 64%nat /\
  Forall (fun c => is_hex_digit c = true) (hex (randomBytes 32 src)).
Proof.
  split; [|apply hex_is_hex].
  rewrite hex_length, randomBytes_length. reflexivity.
Qed.

Lemma hex_digit_inj (a b : N) :
  (a < 16)%N -> (b < 16)%N -> hex_digit a = hex_digit b -> a = b.
Proof.
  unfold hex_digit. intros Ha Hb.
  destruct (N.ltb_spec a 10), (N.ltb_spec b 10); lia.
Qed.

Lemma byte_to_N_inj (b b' : byte) : Byte.to_N b = Byte.to_N b' -> b = b'.
Proof.
  intros E. pose proof (Byte.of_to_N b) as H. rewrite E, Byte.of_to_N in H.
  congruence.
Qed.

(** Distinct byte strings have distinct encodings: a token holds all
    of the entropy it was made from. *)
Lemma hex_inj (bs bs' : list byte) : hex bs = hex bs' -> bs = bs'.
Proof.
  revert bs'. induction bs as [|b bs IH]; intros [|b' bs'];
    unfold hex in *; cbn [flat_map app]; intros E; try discriminate;
    [reflexivity|].
  injection E as Hhi Hlo Hrest.
  pose proof (Byte.to_N_bounded b) as Hb.
  pose proof (Byte.to_N_bounded b') as Hb'.
  apply hex_digit_inj in Hhi;
    [| apply N.Div0.div_lt_upper_bound; lia
     | apply N.Div0.div_lt_upper_bound; lia].
  apply hex_digit_inj in Hlo; [| apply N.mod_lt; lia | apply N.mod_lt; lia].
  f_equal; [|apply IH, Hrest].
  apply byte_to_N_inj.
  rewrite (N.div_mod (Byte.to_N b) 16), (N.div_mod (Byte.to_N b') 16) by lia.
  congruence.
Qed.

(** ** The embedding at work *)

Example generateOTP_low : generateOTP 0 = js "100000".
Proof. reflexivity. Qed.

Example generateOTP_high : generateOTP 899998 = js "999998".
Proof. reflexivity. Qed.

Example generateOTP_wraps : generateOTP 899999 = js "100000".
Proof. reflexivity. Qed.

Example toString_zero : toString 0 = js "0".
Proof. reflexivity. Qed.

Example hex_sample : hex [x00; x0f; xa5; xff] = js "000fa5ff".
Proof. reflexivity. Qed.

Example emailRegex_accepts :
  regex_test emailRegex alice = true /\
  regex_test emailRegex (js "first.last@mail.example.org") = true.
Proof. split; reflexivity. Qed.

Example emailRegex_rejects :
  regex_test emailRegex (js "") = false /\
  regex_test emailRegex (js "a@b") = false /\
  regex_test emailRegex (js "a b@c.d") = false /\
  regex_test emailRegex (js "a@b@c.d") = false /\
  regex_test emailRegex (js "a@b.") = false.
Proof. repeat split; reflexivity. Qed.

(** Issue, two wrong codes, then the right one. *)
Example session_success :
  let st1 := snd (send_otp (env_at 0 23456) alice ∅) in
  let '(a1, st2) := verify_otp (env_at 1000 0) alice (js "111111") st1 in
  let '(a2, st3) := verify_otp (env_at 2000 0) alice (js "222222") st2 in
  let '(a3, st4) := verify_otp (env_at 3000 0) alice (js "123456") st3 in
  a1 = Invalid 2 /\ a2 = Invalid 1 /\
  (exists token, a3 = Success token) /\ st4 = ∅.
Proof. vm_compute. repeat split. eexists. reflexivity. Qed.

(** Issue, three wrong codes, then two more calls. *)
Example session_exhausted :
  let st1 := snd (send_otp (env_at 0 23456) alice ∅) in
  let '(a1, st2) := verify_otp (env_at 1000 0) alice (js "111111") st1 in
  let '(a2, st3) := verify_otp (env_at 2000 0) alice (js "222222") st2 in
  let '(a3, st4) := verify_otp (env_at 3000 0) alice (js "333333") st3 in
  let '(a4, st5) := verify_otp (env_at 4000 0) alice (js "123456") st4 in
  let '(a5, st6) := verify_otp (env_at 5000 0) alice (js "123456") st5 in
  [a1; a2; a3; a4; a5] =
    [Invalid 2; Invalid 1; Invalid 0; AttemptsExhausted; NotFound].
Proof. vm_compute. reflexivity. Qed.

(** ** Generation and verification *)

(** C2: [generateOTP] draws from [crypto.randomInt(100000, 999999)],
    whose upper bound is exclusive, so the code 999999 is never
    produced, whatever the random draw; every produced code is the
    rendering of an integer between 100000 and 999998, six decimal
    digits with a first digit from 1 to 9. *)
Theorem generateOTP_never_999999 :
  forall draw : Z,
    generateOTP draw <> js "999999" /\
    100000 <= randomInt 100000 999999 draw <= 999998 /\
    length (generateOTP draw) = 6%nat /\
    Forall (fun c => is_digit c = true) (generateOTP draw) /\
    (exists c s, generateOTP draw = c :: s /\ (49 <= c <= 57)%N).
Proof.
  intros draw.
  pose proof (randomInt_range 100000 999999 draw ltac:(lia)) as Hn.
  destruct (generateOTP_shape draw) as (Hlen & Hdig & Hhd).
  repeat split; try assumption; try lia.
  destruct (generateOTP_digits draw)
    as (d5 & d4 & d3 & d2 & d1 & d0 & -> & H5 & H4 & H3 & H2 & H1 & H0 & Hval).
  intros E.
  change (js "999999") with [57; 57; 57; 57; 57; 57]%N in E.
  cbn [map] in E.
  injection E as E5 E4 E3 E2 E1 E0. lia.
Qed.

(** C3: once [now > expiresAt] the call answers Expired and deletes the
    record, whatever the attempts counter and whatever code is
    submitted, the stored code included: the expiry test comes before
    the attempts test and before the comparison. *)
Theorem verify_expired_first
    (w : Env) (email body_otp : jsstring) (st : gmap jsstring OtpRecord)
    (r : OtpRecord) :
  email <> [] -> body_otp <> [] ->
  st !! email = Some r ->
  now w > expiresAt r ->
  verify_otp w email body_otp st = (Expired, delete email st) /\
  snd (verify_otp w email body_otp st) !! email = None /\
  (otp r <> [] -> fst (verify_otp w email (otp r) st) = Expired).
Proof.
  intros He Ho Hst Hexp.
  rewrite (verify_step_expired w email body_otp st He Ho r Hst Hexp).
  split; [reflexivity|]. split.
  - apply lookup_delete_eq.
  - intros Hr.
    rewrite (verify_step_expired w email (otp r) st He Hr r Hst Hexp).
    reflexivity.
Qed.

Lemma verify_expired_first_witness :
  verify_otp (env_at 300001 0) alice (js "123456") (store_with 0)
    = (Expired, delete alice (store_with 0)) /\
  snd (verify_otp (env_at 300001 0) alice (js "123456") (store_with 0))
    !! alice = None /\
  (otp (record_with 0) <> [] ->
   fst (verify_otp (env_at 300001 0) alice (otp (record_with 0)) (store_with 0))
     = Expired).
Proof.
  apply (verify_expired_first (env_at 300001 0) alice (js "123456")
           (store_with 0) (record_with 0)).
  - vm_compute. discriminate.
  - vm_compute. discriminate.
  - vm_compute. reflexivity.
  - vm_compute. reflexivity.
Defined.

(** C4: on a live record below the attempt limit the stored code is
    answered with Success and a token of 64 hexadecimal digits, the
    encoding of 32 bytes drawn in this call; the record is deleted, so
    every later call for the identity answers NotFound. *)
Theorem verify_success
    (w : Env) (email body_otp : jsstring) (st : gmap jsstring OtpRecord)
    (r : OtpRecord) :
  email <> [] -> body_otp <> [] ->
  st !! email = Some r ->
  now w <= expiresAt r -> attempts r < 3 ->
  body_otp = otp r ->
  exists token,
    verify_otp w email body_otp st = (Success token, delete email st) /\
    token = hex (randomBytes 32 (byte_draw w)) /\
    length token = 64%nat /\
    Forall (fun c => is_hex_digit c = true) token /\
    forall w' body_otp',
      body_otp' <> [] ->
      verify_otp w' email body_otp' (delete email st)
        = (NotFound, delete email st).
Proof.
  intros He Ho Hst Hlive Hleft Heq.
  exists (hex (randomBytes 32 (byte_draw w))).
  destruct (token_shape (byte_draw w)) as [Hlen Hhex].
  split; [|split; [reflexivity|split; [exact Hlen|split; [exact Hhex|]]]].
  - apply (verify_step_match w email body_otp st He Ho r Hst Hlive Hleft).
    symmetry. exact Heq.
  - intros w' body_otp' Ho'.
    apply verify_step_absent; [exact He | exact Ho' | apply lookup_delete_eq].
Qed.

Lemma verify_success_witness :
  exists token,
    verify_otp (env_at 1000 0) alice (js "123456") (store_with 2)
      = (Success token, delete alice (store_with 2)) /\
    token = hex (randomBytes 32 (byte_draw (env_at 1000 0))) /\
    length token = 64%nat /\
    Forall (fun c => is_hex_digit c = true) token /\
    forall w' body_otp',
      body_otp' <> [] ->
      verify_otp w' alice body_otp' (delete alice (store_with 2))
        = (NotFound, delete alice (store_with 2)).
Proof.
  apply (verify_success (env_at 1000 0) alice (js "123456")
           (store_with 2) (record_with 2)).
  - vm_compute. discriminate.
  - vm_compute. discriminate.
  - vm_compute. reflexivity.
  - vm_compute. discriminate.
  - vm_compute. reflexivity.
  - vm_compute. reflexivity.
Defined.

(** C5: on a live record below the attempt limit a code different from
    the stored one adds one to the attempts counter, leaves code and
    expiry as they were, and answers Invalid with
    [remainingAttempts = 2 - attempts] (attempts as before the call):
    2, 1 and 0 for attempts 0, 1 and 2. *)
Theorem verify_invalid
    (w : Env) (email body_otp : jsstring) (st : gmap jsstring OtpRecord)
    (r : OtpRecord) :
  email <> [] -> body_otp <> [] ->
  st !! email = Some r ->
  now w <= expiresAt r -> attempts r < 3 ->
  body_otp <> otp r ->
  verify_otp w email body_otp st =
    (Invalid (2 - attempts r), <[email := bump r]> st) /\
  snd (verify_otp w email body_otp st) !! email =
    Some {| otp := otp r; expiresAt := expiresAt r;
            attempts := attempts r + 1 |} /\
  2 - attempts r = 3 - (attempts r + 1).
Proof.
  intros He Ho Hst Hlive Hleft Hne.
  rewrite (verify_step_mismatch w email body_otp st He Ho r Hst Hlive Hleft)
    by congruence.
  cbn [snd]. split; [reflexivity|]. split; [|lia].
  apply lookup_insert_eq.
Qed.

Lemma verify_invalid_witness :
  (fst (verify_otp (env_at 1000 0) alice (js "000000") (store_with 0))
     = Invalid (2 - 0) /\
   fst (verify_otp (env_at 1000 0) alice (js "000000") (store_with 1))
     = Invalid (2 - 1) /\
   fst (verify_otp (env_at 1000 0) alice (js "000000") (store_with 2))
     = Invalid (2 - 2)) /\
  snd (verify_otp (env_at 1000 0) alice (js "000000") (store_with 1)) !! alice
    = Some (record_with 2).
Proof.
  assert (H : forall a, a < 3 ->
    verify_otp (env_at 1000 0) alice (js "000000") (store_with a)
      = (Invalid (2 - a), <[alice := bump (record_with a)]> (store_with a)) /\
    snd (verify_otp (env_at 1000 0) alice (js "000000") (store_with a)) !! alice
      = Some (record_with (a + 1)) /\
    2 - a = 3 - (a + 1)).
  { intros a Ha.
    apply (verify_invalid (env_at 1000 0) alice (js "000000")
             (store_with a) (record_with a)).
    - vm_compute. discriminate.
    - vm_compute. discriminate.
    - apply lookup_singleton_eq.
    - vm_compute. discriminate.
    - exact Ha.
    - vm_compute. discriminate. }
  split; [split; [|split]|].
  - rewrite (proj1 (H 0 ltac:(lia))). reflexivity.
  - rewrite (proj1 (H 1 ltac:(lia))). reflexivity.
  - rewrite (proj1 (H 2 ltac:(lia))). reflexivity.
  - apply (H 1). lia.
Defined.

(** C6: a live record whose attempts counter is already 3 or more is
    deleted with the answer AttemptsExhausted; the answer is the same
    for every submitted code, the stored one included, so the code is
    not compared and no counter is incremented. *)
Theorem verify_exhausted
    (w : Env) (email body_otp : jsstring) (st : gmap jsstring OtpRecord)
    (r : OtpRecord) :
  email <> [] -> body_otp <> [] ->
  st !! email = Some r ->
  now w <= expiresAt r -> attempts r >= 3 ->
  verify_otp w email body_otp st = (AttemptsExhausted, delete email st) /\
  snd (verify_otp w email body_otp st) !! email = None /\
  (forall body_otp', body_otp' <> [] ->
     verify_otp w email body_otp' st = verify_otp w email body_otp st) /\
  (otp r <> [] ->
     fst (verify_otp w email (otp r) st) = AttemptsExhausted).
Proof.
  intros He Ho Hst Hlive Hmax.
  rewrite (verify_step_exhausted w email body_otp st He Ho r Hst Hlive Hmax).
  split; [reflexivity|]. split; [apply lookup_delete_eq|]. split.
  - intros body_otp' Ho'.
    apply (verify_step_exhausted w email body_otp' st He Ho' r Hst Hlive Hmax).
  - intros Hr.
    rewrite (verify_step_exhausted w email (otp r) st He Hr r Hst Hlive Hmax).
    reflexivity.
Qed.

Lemma verify_exhausted_witness :
  verify_otp (env_at 1000 0) alice (js "123456") (store_with 3)
    = (AttemptsExhausted, delete alice (store_with 3)).
Proof.
  refine (proj1 (verify_exhausted (env_at 1000 0) alice (js "123456")
                   (store_with 3) (record_with 3) _ _ _ _ _)).
  - vm_compute. discriminate.
  - vm_compute. discriminate.
  - vm_compute. reflexivity.
  - vm_compute. discriminate.
  - vm_compute. discriminate.
Defined.

(** An answer that ends the life of a record leaves no entry behind. *)
Lemma verify_terminal_deletes (w : Env) (email body_otp : jsstring)
    (st : gmap jsstring OtpRecord) :
  terminal (fst (verify_otp w email body_otp st)) = true ->
  snd (verify_otp w email body_otp st) !! email = None.
Proof.
  unfold verify_otp.
  repeat case_match; cbn [fst snd terminal]; intros Ht;
    try discriminate; apply lookup_delete_eq.
Qed.

(** C8: without a record for the identity the answer is NotFound and
    the store is left as it is, be it the empty store of an identity
    that was never issued a code or a store from which the record was
    deleted by an earlier Success, Expired or AttemptsExhausted answer;
    the answer is the same in both cases. *)
Theorem verify_not_found (w : Env) (email body_otp : jsstring) :
  email <> [] -> body_otp <> [] ->
  verify_otp w email body_otp ∅ = (NotFound, ∅) /\
  (forall st, st !! email = None ->
     verify_otp w email body_otp st = (NotFound, st)) /\
  (forall w' body_otp' st,
     terminal (fst (verify_otp w' email body_otp' st)) = true ->
     fst (verify_otp w email body_otp (snd (verify_otp w' email body_otp' st)))
       = fst (verify_otp w email body_otp ∅)).
Proof.
  intros He Ho.
  assert (H : forall st, st !! email = None ->
            verify_otp w email body_otp st = (NotFound, st)).
  { intros st Hst. apply verify_step_absent; assumption. }
  split; [apply H, lookup_empty|]. split; [exact H|].
  intros w' body_otp' st Ht.
  rewrite (H _ (verify_terminal_deletes _ _ _ _ Ht)).
  rewrite (H ∅) by apply lookup_empty. reflexivity.
Qed.

Lemma verify_not_found_witness :
  verify_otp (env_at 1000 0) bob (js "123456") ∅ = (NotFound, ∅) /\
  fst (verify_otp (env_at 2000 0) alice (js "123456")
         (snd (verify_otp (env_at 1000 0) alice (js "123456") (store_with 0))))
    = NotFound.
Proof.
  destruct (verify_not_found (env_at 1000 0) bob (js "123456"))
    as (Hnever & _ & _).
  { vm_compute. discriminate. }
  { vm_compute. discriminate. }
  destruct (verify_not_found (env_at 2000 0) alice (js "123456"))
    as (Hempty & _ & Hgone).
  { vm_compute. discriminate. }
  { vm_compute. discriminate. }
  split; [exact Hnever|].
  rewrite Hgone; [rewrite Hempty; reflexivity|].
  vm_compute. reflexivity.
Defined.

(** C9: the expiry test is the strict [Date.now() > expiresAt]; at
    [now = expiresAt] the record is still live and the stored code is
    answered with Success, not with Expired. *)
Theorem verify_at_expiry_instant
    (w : Env) (email body_otp : jsstring) (st : gmap jsstring OtpRecord)
    (r : OtpRecord) :
  email <> [] -> body_otp <> [] ->
  st !! email = Some r ->
  now w = expiresAt r -> attempts r < 3 ->
  body_otp = otp r ->
  verify_otp w email body_otp st =
    (Success (hex (randomBytes 32 (byte_draw w))), delete email st) /\
  fst (verify_otp w email body_otp st) <> Expired.
Proof.
  intros He Ho Hst Hnow Hleft Heq.
  rewrite (verify_step_match w email body_otp st He Ho r Hst) by (lia || congruence).
  split; [reflexivity|]. cbn [fst]. discriminate.
Qed.

Lemma verify_at_expiry_instant_witness :
  verify_otp (env_at 300000 0) alice (js "123456") (store_with 0) =
    (Success (hex (randomBytes 32 (byte_draw (env_at 300000 0)))),
     delete alice (store_with 0)) /\
  fst (verify_otp (env_at 300000 0) alice (js "123456") (store_with 0))
    <> Expired.
Proof.
  apply (verify_at_expiry_instant (env_at 300000 0) alice (js "123456")
           (store_with 0) (record_with 0)).
  - vm_compute. discriminate.
  - vm_compute. discriminate.
  - vm_compute. reflexivity.
  - vm_compute. reflexivity.
  - vm_compute. reflexivity.
  - vm_compute. reflexivity.
Defined.

(** ** Locality of the handlers *)

Lemma send_otp_frame (w : Env) (X Y : jsstring) (st : gmap jsstring OtpRecord) :
  X <> Y -> snd (send_otp w X st) !! Y = st !! Y.
Proof.
  intros Hne. unfold send_otp.
  repeat case_match; cbn [snd]; rewrite ?lookup_insert_ne by exact Hne;
    reflexivity.
Qed.

Lemma verify_otp_frame (w : Env) (X Y body_otp : jsstring)
    (st : gmap jsstring OtpRecord) :
  X <> Y -> snd (verify_otp w X body_otp st) !! Y = st !! Y.
Proof.
  intros Hne. unfold verify_otp.
  repeat case_match; cbn [snd];
    rewrite ?lookup_delete_ne, ?lookup_insert_ne by exact Hne; reflexivity.
Qed.

Lemma send_otp_own_entry (w : Env) (X : jsstring)
    (st st' : gmap jsstring OtpRecord) :
  fst (send_otp w X st') = fst (send_otp w X st) /\
  snd (send_otp w X st') !! X = snd (send_otp w X st) !! X \/
  snd (send_otp w X st') = st' /\ snd (send_otp w X st) = st.
Proof.
  unfold send_otp.
  repeat case_match; cbn [fst snd]; rewrite ?lookup_insert_eq; auto.
Qed.

Lemma verify_otp_own_entry (w : Env) (X body_otp : jsstring)
    (st st' : gmap jsstring OtpRecord) :
  st' !! X = st !! X ->
  fst (verify_otp w X body_otp st') = fst (verify_otp w X body_otp st) /\
  snd (verify_otp w X body_otp st') !! X = snd (verify_otp w X body_otp st) !! X.
Proof.
  intros Hsame. unfold verify_otp. rewrite Hsame.
  repeat case_match; cbn [fst snd];
    rewrite ?lookup_delete_eq, ?lookup_insert_eq; split; congruence.
Qed.

(** C10: a send or a verify for identity [X] leaves the entry of every
    other identity [Y] as it was (present or absent, with the same
    code, expiry and attempts), and what it answers and does to the
    entry of [X] depends on the store through the entry of [X] only. *)
Theorem other_identities_untouched (X Y : jsstring)
    (st : gmap jsstring OtpRecord) :
  X <> Y ->
  (forall w, snd (send_otp w X st) !! Y = st !! Y) /\
  (forall w body_otp, snd (verify_otp w X body_otp st) !! Y = st !! Y) /\
  (forall w st',
     st' !! X = st !! X ->
     fst (send_otp w X st') = fst (send_otp w X st) /\
     snd (send_otp w X st') !! X = snd (send_otp w X st) !! X) /\
  (forall w body_otp st',
     st' !! X = st !! X ->
     fst (verify_otp w X body_otp st') = fst (verify_otp w X body_otp st) /\
     snd (verify_otp w X body_otp st') !! X
       = snd (verify_otp w X body_otp st) !! X).
Proof.
  intros Hne. repeat split.
  - intros w. apply send_otp_frame, Hne.
  - intros w body_otp. apply verify_otp_frame, Hne.
  - destruct (send_otp_own_entry w X st st') as [[E _] | [E1 E2]].
    + exact E.
    + revert E1 E2. unfold send_otp. repeat case_match; reflexivity.
  - destruct (send_otp_own_entry w X st st') as [[_ E] | [E1 E2]].
    + exact E.
    + rewrite E1, E2. assumption.
  - apply verify_otp_own_entry. assumption.
  - apply verify_otp_own_entry. assumption.
Qed.

Lemma other_identities_untouched_witness :
  snd (send_otp (env_at 1000 23456) bob (store_with 1)) !! alice
    = Some (record_with 1) /\
  snd (verify_otp (env_at 1000 0) bob (js "123456") (store_with 1)) !! alice
    = Some (record_with 1).
Proof.
  destruct (other_identities_untouched bob alice (store_with 1))
    as (Hsend & Hverify & _).
  { vm_compute. discriminate. }
  split.
  - rewrite Hsend. vm_compute. reflexivity.
  - rewrite Hverify. vm_compute. reflexivity.
Defined.

(** ** Re-issuing a code *)

(** C7, as stated, fails when both draws yield the same code: the code
    of the first issue is then accepted after the second issue. *)
Lemma reissue_same_code_accepted :
  let st1 := snd (send_otp (env_at 0 23456) alice ∅) in
  let st2 := snd (send_otp (env_at 1000 23456) alice st1) in
  let first_code := generateOTP 23456 in
  first_code = js "123456" /\
  verify_otp (env_at 2000 0) alice first_code st2
    = (Success (hex (randomBytes 32 (fun _ => x2a))), ∅).
Proof. vm_compute. split; reflexivity. Qed.

(** C7: a send for a well-formed address replaces whatever record the
    identity had by a fresh one: the new code, expiry five minutes
    after the call, attempts 0.  After two issues, and within the
    validity of the second one, the second code is answered with
    Success; the first code is answered with Invalid (two attempts
    left) whenever it differs from the second code, and the second
    code still succeeds after that failure. *)
Theorem reissue_replaces
    (w1 w2 w3 w4 : Env) (email : jsstring) (st : gmap jsstring OtpRecord) :
  regex_test emailRegex email = true ->
  now w3 <= now w2 + 5 * 60 * 1000 ->
  now w4 <= now w2 + 5 * 60 * 1000 ->
  let code1 := generateOTP (int_draw w1) in
  let code2 := generateOTP (int_draw w2) in
  let st1 := snd (send_otp w1 email st) in
  let st2 := snd (send_otp w2 email st1) in
  st1 !! email = Some {| otp := code1; expiresAt := now w1 + 5 * 60 * 1000;
                         attempts := 0 |} /\
  st2 !! email = Some {| otp := code2; expiresAt := now w2 + 5 * 60 * 1000;
                         attempts := 0 |} /\
  (exists token, fst (verify_otp w3 email code2 st2) = Success token) /\
  (code1 <> code2 ->
   fst (verify_otp w3 email code1 st2) = Invalid 2 /\
   exists token,
     fst (verify_otp w4 email code2 (snd (verify_otp w3 email code1 st2)))
       = Success token).
Proof.
  intros Hfmt H3 H4 code1 code2 st1 st2.
  pose proof (email_format_nonempty email Hfmt) as He.
  pose proof (generateOTP_nonempty (int_draw w1)) as Hc1.
  pose proof (generateOTP_nonempty (int_draw w2)) as Hc2.
  subst st1 st2. rewrite !send_step by exact Hfmt. cbn [snd].
  change (5 * 60 * 1000) with 300000 in *.
  fold code1 code2 in Hc1, Hc2 |- *.
  set (r2 := {| otp := code2; expiresAt := now w2 + 300000; attempts := 0 |}).
  set (r1 := {| otp := code1; expiresAt := now w1 + 300000; attempts := 0 |}).
  set (st2 := <[email := r2]> (<[email := r1]> st)).
  assert (Hst2 : st2 !! email = Some r2) by apply lookup_insert_eq.
  split; [apply lookup_insert_eq|]. split; [exact Hst2|]. split.
  - eexists.
    rewrite (verify_step_match w3 email code2 st2 He Hc2 r2 Hst2);
      cbn [expiresAt attempts otp r2]; [reflexivity | lia | lia | reflexivity].
  - intros Hne.
    rewrite (verify_step_mismatch w3 email code1 st2 He Hc1 r2 Hst2);
      cbn [expiresAt attempts otp r2]; [| lia | lia | congruence].
    cbn [fst snd]. split; [reflexivity|].
    eexists.
    rewrite (verify_step_match w4 email code2 _ He Hc2 (bump r2));
      cbn [expiresAt attempts otp r2 bump];
      [reflexivity | apply lookup_insert_eq | lia | lia | reflexivity].
Qed.

Lemma reissue_replaces_witness :
  let st2 := snd (send_otp (env_at 1000 65432) alice
                    (snd (send_otp (env_at 0 23456) alice ∅))) in
  st2 !! alice = Some {| otp := js "165432"; expiresAt := 301000;
                         attempts := 0 |} /\
  fst (verify_otp (env_at 2000 0) alice (js "123456") st2) = Invalid 2 /\
  exists token,
    fst (verify_otp (env_at 3000 0) alice (js "165432")
           (snd (verify_otp (env_at 2000 0) alice (js "123456") st2)))
      = Success token.
Proof.
  destruct (reissue_replaces (env_at 0 23456) (env_at 1000 65432)
              (env_at 2000 0) (env_at 3000 0) alice ∅)
    as (_ & Hst2 & _ & Hfirst).
  { vm_compute. reflexivity. }
  { vm_compute. discriminate. }
  { vm_compute. discriminate. }
  destruct Hfirst as [Hinv Hok].
  { vm_compute. discriminate. }
  split; [exact Hst2|]. split; [exact Hinv | exact Hok].
Defined.

(** ** The attempts counter *)

Lemma delete_attempts_within (lo hi : Z) (email : jsstring)
    (st : gmap jsstring OtpRecord) :
  attempts_within lo hi st -> attempts_within lo hi (delete email st).
Proof.
  intros Hst e r Hr. apply lookup_delete_Some in Hr as [_ Hr].
  exact (Hst e r Hr).
Qed.

Lemma insert_attempts_within (lo hi : Z) (email : jsstring) (r : OtpRecord)
    (st : gmap jsstring OtpRecord) :
  lo <= attempts r <= hi ->
  attempts_within lo hi st -> attempts_within lo hi (<[email := r]> st).
Proof.
  intros Hr Hst e r'. destruct (decide (email = e)) as [->|Hne].
  - rewrite lookup_insert_eq. intros [= <-]. exact Hr.
  - rewrite lookup_insert_ne by exact Hne. apply Hst.
Qed.

Lemma send_otp_attempts_within (hi : Z) (w : Env) (email : jsstring)
    (st : gmap jsstring OtpRecord) :
  0 <= hi ->
  attempts_within 0 hi st -> attempts_within 0 hi (snd (send_otp w email st)).
Proof.
  intros Hhi Hst. unfold send_otp.
  destruct (falsy email); [exact Hst|].
  destruct (negb (regex_test emailRegex email)); [exact Hst|].
  cbn [snd]. apply insert_attempts_within; [cbn [attempts]; lia | exact Hst].
Qed.

Lemma verify_otp_attempts_within (w : Env) (email body_otp : jsstring)
    (st : gmap jsstring OtpRecord) :
  attempts_within 0 3 st ->
  attempts_within 0 3 (snd (verify_otp w email body_otp st)).
Proof.
  intros Hst. unfold verify_otp.
  destruct (falsy email || falsy body_otp); [exact Hst|].
  destruct (st !! email) as [r|] eqn:Hr; [|exact Hst].
  destruct (now w >? expiresAt r); [apply delete_attempts_within, Hst|].
  destruct (Z.geb_spec (attempts r) 3); [apply delete_attempts_within, Hst|].
  pose proof (Hst email r Hr) as Hbound.
  assert (attempts_within 0 3 (<[email := bump r]> st)).
  { apply insert_attempts_within; [cbn [bump attempts]; lia | exact Hst]. }
  destruct (bool_decide (otp (bump r) = body_otp)); cbn [snd];
    [apply delete_attempts_within|]; assumption.
Qed.

Lemma run_attempts_within (qs : list request) : attempts_within 0 3 (run qs).
Proof.
  unfold run.
  assert (H : forall st, attempts_within 0 3 st ->
                         attempts_within 0 3 (fold_left handle qs st)).
  { induction qs as [|q qs IH]; intros st Hst; [exact Hst|].
    cbn [fold_left]. apply IH. destruct q as [w e | w e c]; cbn [handle].
    - apply send_otp_attempts_within; [lia | exact Hst].
    - apply verify_otp_attempts_within, Hst. }
  apply H. intros e r Hr. rewrite lookup_empty in Hr. discriminate.
Qed.

Lemma render_send_otp_attempts_within (w : Render.Env) (email : jsstring)
    (st : gmap jsstring OtpRecord) :
  attempts_within 0 2 st ->
  attempts_within 0 2 (snd (Render.send_otp w email st)).
Proof.
  intros Hst. unfold Render.send_otp.
  repeat case_match; cbn [snd]; try exact Hst;
    (apply insert_attempts_within; [cbn [attempts]; lia | exact Hst]).
Qed.

Lemma render_verify_otp_attempts_within (w : Render.Env)
    (email body_otp : jsstring) (st : gmap jsstring OtpRecord) :
  attempts_within 0 2 st ->
  attempts_within 0 2 (snd (Render.verify_otp w email body_otp st)).
Proof.
  intros Hst. unfold Render.verify_otp.
  destruct (st !! email) as [r|] eqn:Hr; [|exact Hst].
  destruct (Render.now w >? expiresAt r); [apply delete_attempts_within, Hst|].
  destruct (bool_decide (otp r = body_otp));
    [apply delete_attempts_within, Hst|].
  pose proof (Hst email r Hr) as Hbound.
  destruct (Z.geb_spec (attempts (bump r)) 3); cbn [snd].
  - rewrite delete_insert_eq. apply delete_attempts_within, Hst.
  - apply insert_attempts_within; [|exact Hst].
    cbn [bump attempts] in *. lia.
Qed.

Lemma render_run_attempts_within (qs : list render_request) :
  attempts_within 0 2 (render_run qs).
Proof.
  unfold render_run.
  assert (H : forall st, attempts_within 0 2 st ->
                         attempts_within 0 2 (fold_left render_handle qs st)).
  { induction qs as [|q qs IH]; intros st Hst; [exact Hst|].
    cbn [fold_left]. apply IH. destruct q as [w e | w e c]; cbn [render_handle].
    - apply render_send_otp_attempts_within, Hst.
    - apply render_verify_otp_attempts_within, Hst. }
  apply H. intros e r Hr. rewrite lookup_empty in Hr. discriminate.
Qed.

Lemma render_verify_step_limit (w : Render.Env) (email body_otp : jsstring)
    (st : gmap jsstring OtpRecord) (r : OtpRecord) :
  st !! email = Some r ->
  Render.now w <= expiresAt r -> attempts r + 1 >= 3 ->
  otp r <> body_otp ->
  Render.verify_otp w email body_otp st
    = (Render.TooManyAttempts, delete email st).
Proof.
  intros Hst Hlive Hmax Hne. unfold Render.verify_otp. rewrite Hst.
  destruct (Z.gtb_spec (Render.now w) (expiresAt r)); [lia|].
  rewrite bool_decide_eq_false_2 by exact Hne.
  cbn [bump attempts].
  destruct (Z.geb_spec (attempts r + 1) 3); [|lia].
  rewrite delete_insert_eq. reflexivity.
Qed.

(** C1, as stated, fails in [server.js]: after a code was issued and
    two wrong codes were submitted, the third wrong code is answered
    with [remainingAttempts = 0] while the record stays in the store
    with attempts = 3. *)
Lemma third_failure_keeps_record :
  let st := run [SendOtp (env_at 0 23456) alice;
                 VerifyOtp (env_at 1000 0) alice (js "000000");
                 VerifyOtp (env_at 2000 0) alice (js "000000")] in
  st !! alice = Some {| otp := js "123456"; expiresAt := 300000;
                        attempts := 2 |} /\
  fst (verify_otp (env_at 3000 0) alice (js "000000") st) = Invalid 0 /\
  snd (verify_otp (env_at 3000 0) alice (js "000000") st) !! alice
    = Some {| otp := js "123456"; expiresAt := 300000; attempts := 3 |}.
Proof. vm_compute. repeat split. Qed.

(** C1: on a live record below the limit, a wrong code that takes the
    attempts counter to 3 is answered in [server.js] with
    [remainingAttempts = 0] and the record is kept with attempts = 3;
    the next call for the identity deletes it, with the answer Expired
    or AttemptsExhausted, whatever code it carries.  So a stored record
    always has attempts between 0 and 3.  In the Render variant the
    same call deletes the record and answers 'Too many failed
    attempts' with no count, and a stored record always has attempts
    between 0 and 2. *)
Theorem attempts_limit_reached
    (w : Env) (rw : Render.Env) (email body_otp : jsstring)
    (st : gmap jsstring OtpRecord) (r : OtpRecord) :
  email <> [] -> body_otp <> [] ->
  st !! email = Some r ->
  now w <= expiresAt r -> Render.now rw <= expiresAt r ->
  attempts r < 3 -> attempts r + 1 >= 3 ->
  body_otp <> otp r ->
  verify_otp w email body_otp st = (Invalid 0, <[email := bump r]> st) /\
  snd (verify_otp w email body_otp st) !! email =
    Some {| otp := otp r; expiresAt := expiresAt r; attempts := 3 |} /\
  (forall w' body_otp',
     body_otp' <> [] ->
     snd (verify_otp w' email body_otp' (<[email := bump r]> st))
       = delete email st /\
     (fst (verify_otp w' email body_otp' (<[email := bump r]> st)) = Expired \/
      fst (verify_otp w' email body_otp' (<[email := bump r]> st))
        = AttemptsExhausted)) /\
  Render.verify_otp rw email body_otp st
    = (Render.TooManyAttempts, delete email st) /\
  (forall qs, attempts_within 0 3 (run qs)) /\
  (forall qs, attempts_within 0 2 (render_run qs)).
Proof.
  intros He Ho Hst Hlive Hrlive Hlt Hge Hne.
  assert (Ha : attempts r = 2) by lia.
  rewrite (verify_step_mismatch w email body_otp st He Ho r Hst Hlive Hlt)
    by congruence.
  rewrite Ha. cbn [snd].
  split; [reflexivity|]. split.
  { rewrite lookup_insert_eq. unfold bump. rewrite Ha. reflexivity. }
  split.
  { intros w' body_otp' Ho'.
    assert (Hst' : <[email := bump r]> st !! email = Some (bump r))
      by apply lookup_insert_eq.
    destruct (Z.le_gt_cases (now w') (expiresAt (bump r))) as [Hl | Hx].
    - rewrite (verify_step_exhausted w' email body_otp' _ He Ho' (bump r) Hst' Hl)
        by (cbn [bump attempts]; lia).
      cbn [fst snd]. rewrite delete_insert_eq. auto.
    - rewrite (verify_step_expired w' email body_otp' _ He Ho' (bump r) Hst')
        by lia.
      cbn [fst snd]. rewrite delete_insert_eq. auto. }
  split.
  { apply (render_verify_step_limit rw email body_otp st r);
      [exact Hst | exact Hrlive | exact Hge | congruence]. }
  split; [apply run_attempts_within | apply render_run_attempts_within].
Qed.

Lemma attempts_limit_reached_witness :
  verify_otp (env_at 3000 0) alice (js "000000") (store_with 2)
    = (Invalid 0, <[alice := bump (record_with 2)]> (store_with 2)) /\
  Render.verify_otp (render_env_at 3000 0) alice (js "000000") (store_with 2)
    = (Render.TooManyAttempts, delete alice (store_with 2)).
Proof.
  destruct (attempts_limit_reached (env_at 3000 0) (render_env_at 3000 0)
              alice (js "000000") (store_with 2) (record_with 2))
    as (Hserver & _ & _ & Hrender & _).
  { vm_compute. discriminate. }
  { vm_compute. discriminate. }
  { vm_compute. reflexivity. }
  { vm_compute. discriminate. }
  { vm_compute. discriminate. }
  { vm_compute. reflexivity. }
  { vm_compute. discriminate. }
  { vm_compute. discriminate. }
  split; [exact Hserver | exact Hrender].
Defined.

(** * Further properties of the code *)

(** ** The regular expression matcher *)

Lemma matches_void_inv (s : jsstring) : matches Void s -> False.
Proof. intros H. inversion H. Qed.

Lemma matches_eps_inv (s : jsstring) : matches Eps s -> s = [].
Proof. intros H. inversion H. reflexivity. Qed.

Lemma matches_class_inv (p : code_unit -> bool) (s : jsstring) :
  matches (Class p) s -> exists c, s = [c] /\ p c = true.
Proof. intros H. inversion H; subst. eauto. Qed.

Lemma matches_cat_inv (r1 r2 : regex) (s : jsstring) :
  matches (Cat r1 r2) s ->
  exists s1 s2, s = s1 ++ s2 /\ matches r1 s1 /\ matches r2 s2.
Proof. intros H. inversion H; subst. eauto. Qed.

Lemma matches_alt_inv (r1 r2 : regex) (s : jsstring) :
  matches (Alt r1 r2) s -> matches r1 s \/ matches r2 s.
Proof. intros H. inversion H; subst; auto. Qed.

Lemma matches_nil_cat (r1 r2 : regex) :
  matches (Cat r1 r2) [] -> matches r1 [] /\ matches r2 [].
Proof.
  intros H. apply matches_cat_inv in H as (s1 & s2 & E & H1 & H2).
  symmetry in E. apply app_eq_nil in E as [-> ->]. split; assumption.
Qed.

Lemma nullable_matches (r : regex) : nullable r = true <-> matches r [].
Proof.
  induction r as [| |p|r1 IH1 r2 IH2|r1 IH1 r2 IH2|r IH]; cbn [nullable].
  - split; [discriminate | intros H; destruct (matches_void_inv _ H)].
  - split; [constructor | reflexivity].
  - split; [discriminate|].
    intros H. apply matches_class_inv in H as (c & E & _). discriminate.
  - rewrite andb_true_iff, IH1, IH2. split.
    + intros [H1 H2]. apply (MCat r1 r2 [] [] H1 H2).
    + apply matches_nil_cat.
  - rewrite orb_true_iff, IH1, IH2. split.
    + intros [H | H]; [apply MAltL | apply MAltR]; exact H.
    + apply matches_alt_inv.
  - split; [constructor | reflexivity].
Qed.

Lemma matches_star_cons (r : regex) (s0 : jsstring) :
  matches (Star r) s0 ->
  forall c s, s0 = c :: s ->
    exists s1 s2, s = s1 ++ s2 /\ matches r (c :: s1) /\ matches (Star r) s2.
Proof.
  remember (Star r) as r' eqn:Er. intros H. revert Er.
  induction H as [| | | | | |r0 s1 s2 H1 _ H2 IH2]; intros Er;
    try discriminate.
  injection Er as ->. intros c s E.
  destruct s1 as [|c1 s1].
  - apply (IH2 eq_refl c s E).
  - injection E as -> <-. exists s1, s2. auto.
Qed.

Lemma matches_cat_cons (r1 r2 : regex) (c : code_unit) (s : jsstring) :
  matches (Cat r1 r2) (c :: s) ->
  (matches r1 [] /\ matches r2 (c :: s)) \/
  (exists s1 s2, s = s1 ++ s2 /\ matches r1 (c :: s1) /\ matches r2 s2).
Proof.
  intros H. apply matches_cat_inv in H as (s1 & s2 & E & H1 & H2).
  destruct s1 as [|c1 s1]; cbn [app] in E.
  - subst s2. left. split; assumption.
  - injection E as <- ->. right. exists s1, s2. auto.
Qed.

Lemma deriv_matches (c : code_unit) (r : regex) :
  forall s, matches (deriv c r) s <-> matches r (c :: s).
Proof.
  induction r as [| |p|r1 IH1 r2 IH2|r1 IH1 r2 IH2|r IH]; intros s;
    cbn [deriv].
  - split; intros H; destruct (matches_void_inv _ H).
  - split; intros H; [destruct (matches_void_inv _ H)|].
    apply matches_eps_inv in H. discriminate.
  - split.
    + destruct (p c) eqn:Hp; intros H; [|destruct (matches_void_inv _ H)].
      apply matches_eps_inv in H as ->. constructor. exact Hp.
    + intros H. apply matches_class_inv in H as (c' & E & Hp).
      injection E as <- ->. rewrite Hp. constructor.
  - assert (Hcat : matches (Cat (deriv c r1) r2) s <->
                   exists s1 s2, s = s1 ++ s2 /\ matches r1 (c :: s1) /\
                                 matches r2 s2).
    { split.
      - intros H. apply matches_cat_inv in H as (s1 & s2 & -> & H1 & H2).
        exists s1, s2. split; [reflexivity|]. split; [apply IH1, H1 | exact H2].
      - intros (s1 & s2 & -> & H1 & H2).
        apply MCat; [apply IH1, H1 | exact H2]. }
    destruct (nullable r1) eqn:Hn.
    + split.
      * intros H. apply matches_alt_inv in H as [H | H].
        -- apply Hcat in H as (s1 & s2 & -> & H1 & H2).
           apply (MCat r1 r2 (c :: s1) s2 H1 H2).
        -- apply IH2 in H. apply nullable_matches in Hn.
           apply (MCat r1 r2 [] (c :: s) Hn H).
      * intros H. apply matches_cat_cons in H as [[_ H2] | H].
        -- apply MAltR, IH2, H2.
        -- apply MAltL, Hcat, H.
    + rewrite Hcat. split.
      * intros (s1 & s2 & -> & H1 & H2). apply (MCat r1 r2 (c :: s1) s2 H1 H2).
      * intros H. apply matches_cat_cons in H as [[H1 _] | H]; [|exact H].
        apply nullable_matches in H1. congruence.
  - split; intros H.
    + apply matches_alt_inv in H as [H | H];
        [apply MAltL, IH1, H | apply MAltR, IH2, H].
    + apply matches_alt_inv in H as [H | H];
        [apply MAltL, IH1, H | apply MAltR, IH2, H].
  - split.
    + intros H. apply matches_cat_inv in H as (s1 & s2 & -> & H1 & H2).
      apply IH in H1. apply (MStarApp r (c :: s1) s2 H1 H2).
    + intros H.
      destruct (matches_star_cons r _ H c s eq_refl) as (s1 & s2 & -> & H1 & H2).
      apply MCat; [apply IH, H1 | exact H2].
Qed.

(** The matcher decides the language of the expression. *)
Lemma regex_test_matches (r : regex) (s : jsstring) :
  regex_test r s = true <-> matches r s.
Proof.
  revert r. induction s as [|c s IH]; intros r; cbn [regex_test].
  - apply nullable_matches.
  - rewrite IH. apply deriv_matches.
Qed.

Lemma star_class (p : code_unit -> bool) (s : jsstring) :
  matches (Star (Class p)) s <-> Forall (fun c => p c = true) s.
Proof.
  split.
  - remember (Star (Class p)) as r eqn:Er. intros H. revert Er.
    induction H as [| | | | | |r0 s1 s2 H1 _ H2 IH2]; intros Er;
      try discriminate; [constructor|].
    injection Er as ->.
    apply matches_class_inv in H1 as (c & -> & Hc).
    constructor; [exact Hc | apply IH2; reflexivity].
  - induction 1 as [|c s Hc _ IH]; [constructor|].
    apply (MStarApp (Class p) [c] s); [constructor; exact Hc | exact IH].
Qed.

Lemma plus_class (p : code_unit -> bool) (s : jsstring) :
  matches (Plus (Class p)) s <-> s <> [] /\ Forall (fun c => p c = true) s.
Proof.
  unfold Plus. split.
  - intros H. apply matches_cat_inv in H as (s1 & s2 & -> & H1 & H2).
    apply matches_class_inv in H1 as (c & -> & Hc).
    apply star_class in H2. split; [discriminate|].
    constructor; assumption.
  - intros [Hne Hall]. destruct Hall as [|c s Hc Hall]; [congruence|].
    apply (MCat (Class p) _ [c] s); [constructor; exact Hc|].
    apply star_class, Hall.
Qed.

Lemma chr_matches (k : code_unit) (s : jsstring) :
  matches (chr k) s <-> s = [k].
Proof.
  unfold chr. split.
  - intros H. apply matches_class_inv in H as (c & -> & Hc).
    apply N.eqb_eq in Hc. congruence.
  - intros ->. constructor. apply N.eqb_refl.
Qed.

(** X1: the address check accepts exactly the strings
    [local @ domain . tail] whose three parts are non-empty and hold
    neither white space nor [@]. *)
Theorem emailRegex_accepts_exactly (s : jsstring) :
  regex_test emailRegex s = true <->
  exists a b c : jsstring,
    s = a ++ 64%N :: b ++ 46%N :: c /\
    a <> [] /\ b <> [] /\ c <> [] /\
    Forall (fun u => not_space_at u = true) a /\
    Forall (fun u => not_space_at u = true) b /\
    Forall (fun u => not_space_at u = true) c.
Proof.
  rewrite regex_test_matches. unfold emailRegex. split.
  - intros H.
    apply matches_cat_inv in H as (a & s1 & -> & Ha & H).
    apply matches_cat_inv in H as (at_ & s2 & -> & Hat & H).
    apply matches_cat_inv in H as (b & s3 & -> & Hb & H).
    apply matches_cat_inv in H as (dot & c & -> & Hdot & Hc).
    apply chr_matches in Hat as ->. apply chr_matches in Hdot as ->.
    apply plus_class in Ha as [Ha1 Ha2].
    apply plus_class in Hb as [Hb1 Hb2].
    apply plus_class in Hc as [Hc1 Hc2].
    exists a, b, c. repeat split; assumption.
  - intros (a & b & c & -> & Ha1 & Hb1 & Hc1 & Ha2 & Hb2 & Hc2).
    apply MCat; [apply plus_class; split; assumption|].
    apply (MCat (chr 64) _ [64%N]); [apply chr_matches; reflexivity|].
    apply MCat; [apply plus_class; split; assumption|].
    apply (MCat (chr 46) _ [46%N]); [apply chr_matches; reflexivity|].
    apply plus_class; split; assumption.
Qed.

(** X2: an accepted address holds no white space and exactly one [@]. *)
Theorem emailRegex_one_at (s : jsstring) :
  regex_test emailRegex s = true ->
  Forall (fun u => is_space u = false) s /\
  length (List.filter (fun u => (u =? 64)%N) s) = 1%nat.
Proof.
  intros H. apply emailRegex_accepts_exactly in H
    as (a & b & c & -> & _ & _ & _ & Ha & Hb & Hc).
  assert (Hpart : forall l, Forall (fun u => not_space_at u = true) l ->
            Forall (fun u => is_space u = false) l /\
            List.filter (fun u => (u =? 64)%N) l = []).
  { induction 1 as [|u l Hu _ [IH1 IH2]]; [split; [constructor | reflexivity]|].
    unfold not_space_at in Hu. apply andb_true_iff in Hu as [Hs Hat].
    apply negb_true_iff in Hs, Hat.
    split; [constructor; assumption|].
    cbn [List.filter]. rewrite Hat. exact IH2. }
  destruct (Hpart a Ha) as [Sa Fa], (Hpart b Hb) as [Sb Fb],
           (Hpart c Hc) as [Sc Fc].
  split.
  - apply Forall_app. split; [exact Sa|].
    constructor; [reflexivity|]. apply Forall_app. split; [exact Sb|].
    constructor; [reflexivity | exact Sc].
  - rewrite List.filter_app. cbn [List.filter N.eqb Pos.eqb].
    rewrite List.filter_app. cbn [List.filter N.eqb Pos.eqb].
    rewrite Fa, Fb, Fc. reflexivity.
Qed.

Lemma emailRegex_one_at_witness :
  Forall (fun u => is_space u = false) alice /\
  length (List.filter (fun u => (u =? 64)%N) alice) = 1%nat.
Proof.
  apply (emailRegex_one_at alice). vm_compute. reflexivity.
Defined.

(** X3: the code pattern of the third application accepts exactly the
    strings of six decimal digits. *)
Theorem otpPattern_accepts_exactly (s : jsstring) :
  regex_test otpPattern s = true <->
  length s = 6%nat /\ Forall (fun c => is_digit c = true) s.
Proof.
  rewrite regex_test_matches. unfold otpPattern. split.
  - intros H.
    repeat (apply matches_cat_inv in H as (? & ? & -> & Hc & H);
            apply matches_class_inv in Hc as (? & -> & ?)).
    apply matches_class_inv in H as (? & -> & ?).
    split; [reflexivity | repeat constructor; assumption].
  - intros [Hlen Hall].
    destruct s as [|c1 [|c2 [|c3 [|c4 [|c5 [|c6 [|c7 s]]]]]]];
      try discriminate.
    repeat match goal with
           | H : Forall _ (_ :: _) |- _ => apply Forall_cons_1 in H as [? H]
           end.
    apply (MCat _ _ [c1]); [constructor; assumption|].
    apply (MCat _ _ [c2]); [constructor; assumption|].
    apply (MCat _ _ [c3]); [constructor; assumption|].
    apply (MCat _ _ [c4]); [constructor; assumption|].
    apply (MCat _ _ [c5] [c6]); constructor; assumption.
Qed.

(** X4: every code [generateOTP] returns passes the code pattern of
    the third application. *)
Theorem generateOTP_passes_otpPattern (draw : Z) :
  regex_test otpPattern (generateOTP draw) = true.
Proof.
  apply otpPattern_accepts_exactly.
  destruct (generateOTP_shape draw) as (Hlen & Hdig & _).
  split; assumption.
Qed.

(** ** Codes and tokens *)

(** X5: two calls return the same code exactly when
    [crypto.randomInt] returned the same integer: the decimal
    rendering loses nothing on the range, so there are 899999
    distinct codes, one for each integer from 100000 to 999998. *)
Theorem generateOTP_collision (draw draw' : Z) :
  generateOTP draw = generateOTP draw' <->
  randomInt 100000 999999 draw = randomInt 100000 999999 draw'.
Proof.
  split.
  - intros E.
    destruct (generateOTP_digits draw)
      as (d5 & d4 & d3 & d2 & d1 & d0 & E1 & ? & ? & ? & ? & ? & ? & V1).
    destruct (generateOTP_digits draw')
      as (e5 & e4 & e3 & e2 & e1 & e0 & E2 & ? & ? & ? & ? & ? & ? & V2).
    rewrite E1, E2 in E. cbn [map] in E.
    injection E as Q5 Q4 Q3 Q2 Q1 Q0. lia.
  - intros E. unfold generateOTP. rewrite E. reflexivity.
Qed.

(** X6: two proof tokens are equal exactly when the 32 random bytes
    behind them are. *)
Theorem token_injective (src src' : nat -> byte) :
  hex (randomBytes 32 src) = hex (randomBytes 32 src') <->
  forall i, (i < 32)%nat -> src i = src' i.
Proof.
  unfold randomBytes. split.
  - intros E. apply hex_inj in E.
    intros i Hi. apply (proj1 map_ext_in_iff E).
    apply in_seq. lia.
  - intros E. f_equal. apply map_ext_in. intros i Hi.
    apply in_seq in Hi. apply E. lia.
Qed.

(** ** What the handlers of the first application keep and disclose *)

(** X7: outside production the answer to an accepted send carries the
    very code that is stored for the address; in production it carries
    none.  The record is stored whether or not the mail went out. *)
Theorem send_discloses_stored_code
    (w : Env) (email : jsstring) (st : gmap jsstring OtpRecord) :
  regex_test emailRegex email = true ->
  exists code,
    snd (send_otp w email st) !! email
      = Some {| otp := code; expiresAt := now w + 300000; attempts := 0 |} /\
    fst (send_otp w email st)
      = SendOk (smtp_ready w && mail_delivered w)
               (if production w then None else Some code).
Proof.
  intros Hfmt. exists (generateOTP (int_draw w)).
  rewrite send_step by exact Hfmt. cbn [fst snd].
  split; [apply lookup_insert_eq | reflexivity].
Qed.

Lemma send_discloses_stored_code_witness :
  exists code,
    snd (send_otp (env_at 0 23456) alice ∅) !! alice
      = Some {| otp := code; expiresAt := now (env_at 0 23456) + 300000;
                attempts := 0 |} /\
    fst (send_otp (env_at 0 23456) alice ∅)
      = SendOk (smtp_ready (env_at 0 23456) && mail_delivered (env_at 0 23456))
               (if production (env_at 0 23456) then None else Some code).
Proof.
  apply (send_discloses_stored_code (env_at 0 23456) alice ∅).
  vm_compute. reflexivity.
Defined.

(** X8: a verify call never adds a record and never changes the code
    or the expiry of one; the attempts counter of a record that stays
    grows by at most one. *)
Theorem verify_keeps_code_and_expiry
    (w : Env) (email body_otp : jsstring) (st : gmap jsstring OtpRecord)
    (e : jsstring) (r' : OtpRecord) :
  snd (verify_otp w email body_otp st) !! e = Some r' ->
  exists r,
    st !! e = Some r /\ otp r' = otp r /\ expiresAt r' = expiresAt r /\
    attempts r <= attempts r' <= attempts r + 1.
Proof.
  destruct (decide (email = e)) as [<-|Hne].
  - unfold verify_otp.
    destruct (falsy email || falsy body_otp);
      [intros H; exists r'; repeat split; (assumption || lia)|].
    destruct (st !! email) as [r|] eqn:Hr;
      [|cbn [snd]; rewrite Hr; discriminate].
    repeat case_match; cbn [snd];
      rewrite ?lookup_delete_eq, ?lookup_insert_eq; try discriminate;
      intros [= <-]; exists r; cbn [bump otp expiresAt attempts];
      repeat split; lia.
  - rewrite verify_otp_frame by exact Hne.
    intros H; exists r'; repeat split; (assumption || lia).
Qed.

Lemma verify_keeps_code_and_expiry_witness :
  exists r,
    store_with 1 !! alice = Some r /\
    otp (record_with 2) = otp r /\
    expiresAt (record_with 2) = expiresAt r /\
    attempts r <= attempts (record_with 2) <= attempts r + 1.
Proof.
  apply (verify_keeps_code_and_expiry (env_at 1000 0) alice (js "000000")
           (store_with 1) alice (record_with 2)).
  vm_compute. reflexivity.
Defined.

(** X9: expiry is only looked at when the identity itself is named:
    whatever requests for other identities arrive, and however late,
    the record of an identity stays in the store as it is. *)
Theorem untouched_record_persists
    (e : jsstring) (qs : list request) (st : gmap jsstring OtpRecord) :
  Forall (fun q => request_email q <> e) qs ->
  fold_left handle qs st !! e = st !! e.
Proof.
  intros H. revert st.
  induction H as [|q qs Hq _ IH]; intros st; [reflexivity|].
  cbn [fold_left]. rewrite IH.
  destruct q as [w email | w email body_otp]; cbn [handle request_email] in *.
  - apply send_otp_frame, Hq.
  - apply verify_otp_frame, Hq.
Qed.

Lemma untouched_record_persists_witness :
  fold_left handle
    [VerifyOtp (env_at 900000000 0) bob (js "123456");
     SendOtp (env_at 900000001 5) bob;
     VerifyOtp (env_at 900000002 0) bob (js "100005")]
    (store_with 1) !! alice
  = store_with 1 !! alice.
Proof.
  apply untouched_record_persists.
  repeat constructor; vm_compute; discriminate.
Defined.

(** ** Reachable stores *)

Lemma send_otp_well_formed (w : Env) (email : jsstring)
    (st : gmap jsstring OtpRecord) :
  well_formed st -> well_formed (snd (send_otp w email st)).
Proof.
  intros Hst.
  destruct (regex_test emailRegex email) eqn:Hfmt;
    [|rewrite send_rejected by exact Hfmt; exact Hst].
  rewrite send_step by exact Hfmt. cbn [snd].
  intros e r. destruct (decide (email = e)) as [<-|Hne].
  - rewrite lookup_insert_eq. intros [= <-]. cbn [otp attempts].
    split; [exact Hfmt|]. split; [eexists; reflexivity | lia].
  - rewrite lookup_insert_ne by exact Hne. apply Hst.
Qed.

Lemma verify_otp_well_formed (w : Env) (email body_otp : jsstring)
    (st : gmap jsstring OtpRecord) :
  well_formed st -> well_formed (snd (verify_otp w email body_otp st)).
Proof.
  intros Hst e r' Hr'.
  pose proof (verify_otp_attempts_within w email body_otp st) as Hatt.
  destruct (verify_keeps_code_and_expiry w email body_otp st e r' Hr')
    as (r & Hr & Hotp & _ & _).
  destruct (Hst e r Hr) as (Hfmt & Hgen & _).
  split; [exact Hfmt|]. split; [rewrite Hotp; exact Hgen|].
  apply (Hatt ltac:(intros e0 r0 H0; apply (Hst e0 r0 H0)) e r' Hr').
Qed.

Lemma run_well_formed (qs : list request) : well_formed (run qs).
Proof.
  unfold run.
  assert (H : forall st, well_formed st -> well_formed (fold_left handle qs st)).
  { induction qs as [|q qs IH]; intros st Hst; [exact Hst|].
    cbn [fold_left]. apply IH. destruct q as [w e | w e c]; cbn [handle].
    - apply send_otp_well_formed, Hst.
    - apply verify_otp_well_formed, Hst. }
  apply H. intros e r Hr. rewrite lookup_empty in Hr. discriminate.
Qed.

Lemma verify_success_inv (w : Env) (email body_otp : jsstring)
    (st : gmap jsstring OtpRecord) (token : jsstring) :
  fst (verify_otp w email body_otp st) = Success token ->
  exists r, st !! email = Some r /\ otp r = body_otp /\
            now w <= expiresAt r /\ attempts r < 3.
Proof.
  unfold verify_otp.
  destruct (falsy email || falsy body_otp); [discriminate|].
  destruct (st !! email) as [r|]; [|discriminate].
  destruct (Z.gtb_spec (now w) (expiresAt r)); [discriminate|].
  destruct (Z.geb_spec (attempts r) 3); [discriminate|].
  cbn [bump otp].
  destruct (bool_decide (otp r = body_otp)) eqn:Hd; [|discriminate].
  intros _. apply bool_decide_eq_true_1 in Hd. exists r. auto.
Qed.

(** X10: after any sequence of requests, every key of the store is an
    address the format check accepts, every stored code is one that
    [generateOTP] returns, and so the only codes that can ever be
    answered with Success are strings of six decimal digits. *)
Theorem only_generated_codes_succeed
    (qs : list request) (w : Env) (email body_otp token : jsstring) :
  fst (verify_otp w email body_otp (run qs)) = Success token ->
  regex_test emailRegex email = true /\
  (exists draw, body_otp = generateOTP draw) /\
  length body_otp = 6%nat /\
  Forall (fun c => is_digit c = true) body_otp.
Proof.
  intros H. apply verify_success_inv in H as (r & Hr & Hotp & _ & _).
  destruct (run_well_formed qs email r Hr) as (Hfmt & [draw Hgen] & _).
  subst body_otp. rewrite Hgen.
  destruct (generateOTP_shape draw) as (Hlen & Hdig & _).
  split; [exact Hfmt|]. split; [eexists; reflexivity|]. split; assumption.
Qed.

Lemma only_generated_codes_succeed_witness :
  regex_test emailRegex alice = true /\
  (exists draw, js "123456" = generateOTP draw) /\
  length (js "123456") = 6%nat /\
  Forall (fun c => is_digit c = true) (js "123456").
Proof.
  apply (only_generated_codes_succeed
           [SendOtp (env_at 0 23456) alice] (env_at 1000 0) alice
           (js "123456") (hex (randomBytes 32 (fun _ => x2a)))).
  vm_compute. reflexivity.
Defined.

(** ** Counting answers *)

Lemma count_cons (f : answer -> bool) (a : answer) (l : list answer) :
  count f (a :: l) = Z.b2z (f a) + count f l.
Proof.
  unfold count. cbn [List.filter]. destruct (f a); cbn [length Z.b2z]; lia.
Qed.

Lemma budget_nonneg (e : jsstring) (st : gmap jsstring OtpRecord) :
  0 <= budget e st.
Proof. unfold budget. destruct (st !! e); lia. Qed.

Lemma holds_record_nonneg (e : jsstring) (st : gmap jsstring OtpRecord) :
  0 <= holds_record e st.
Proof. unfold holds_record. destruct (st !! e); lia. Qed.

Lemma verify_accounting (w : Env) (email body_otp e : jsstring)
    (st : gmap jsstring OtpRecord) :
  let a := VerifyAnswer email (fst (verify_otp w email body_otp st)) in
  let st' := snd (verify_otp w email body_otp st) in
  Z.b2z (is_success e a) + holds_record e st' <= holds_record e st /\
  Z.b2z (is_invalid e a) + budget e st' <= budget e st.
Proof.
  cbn zeta. destruct (decide (email = e)) as [<-|Hne].
  - unfold is_success, is_invalid, holds_record, budget, verify_otp.
    destruct (falsy email || falsy body_otp);
      [cbn [fst snd Z.b2z]; destruct (st !! email); lia|].
    destruct (st !! email) as [r|] eqn:Hr;
      [|cbn [fst snd Z.b2z]; rewrite Hr; lia].
    destruct (Z.gtb_spec (now w) (expiresAt r));
      [cbn [fst snd Z.b2z]; rewrite lookup_delete_eq; lia|].
    destruct (Z.geb_spec (attempts r) 3);
      [cbn [fst snd Z.b2z]; rewrite lookup_delete_eq; lia|].
    destruct (bool_decide (otp (bump r) = body_otp)); cbn [fst snd].
    + rewrite lookup_delete_eq, bool_decide_eq_true_2 by reflexivity.
      cbn [Z.b2z]. lia.
    + rewrite lookup_insert_eq, bool_decide_eq_true_2 by reflexivity.
      cbn [Z.b2z bump attempts]. lia.
  - unfold holds_record, budget. rewrite verify_otp_frame by exact Hne.
    unfold is_success, is_invalid.
    destruct (fst (verify_otp w email body_otp st));
      rewrite ?bool_decide_eq_false_2 by exact Hne; cbn [Z.b2z]; lia.
Qed.

Lemma send_accounting (w : Env) (email e : jsstring)
    (st : gmap jsstring OtpRecord) :
  let a := SendAnswer email (fst (send_otp w email st)) in
  let st' := snd (send_otp w email st) in
  holds_record e st' <= Z.b2z (is_issue e a) + holds_record e st /\
  budget e st' <= 3 * Z.b2z (is_issue e a) + budget e st.
Proof.
  cbn zeta.
  pose proof (budget_nonneg e st). pose proof (holds_record_nonneg e st).
  destruct (decide (email = e)) as [<-|Hne].
  - destruct (regex_test emailRegex email) eqn:Hfmt.
    + rewrite send_step by exact Hfmt. cbn [fst snd is_issue].
      rewrite bool_decide_eq_true_2 by reflexivity.
      unfold holds_record at 1, budget at 1. rewrite lookup_insert_eq.
      cbn [attempts Z.b2z]. lia.
    + rewrite send_rejected by exact Hfmt.
      destruct (is_issue email _); cbn [Z.b2z]; lia.
  - unfold holds_record, budget. rewrite send_otp_frame by exact Hne.
    fold (holds_record e st) (budget e st).
    destruct (is_issue e _); cbn [Z.b2z]; lia.
Qed.

Lemma serve_accounting (e : jsstring) (qs : list request) :
  forall st,
    count (is_success e) (fst (serve qs st))
      <= count (is_issue e) (fst (serve qs st)) + holds_record e st /\
    count (is_invalid e) (fst (serve qs st))
      <= 3 * count (is_issue e) (fst (serve qs st)) + budget e st.
Proof.
  induction qs as [|q qs IH]; intros st.
  - cbn [serve fst]. unfold count. cbn [List.filter length].
    pose proof (budget_nonneg e st). pose proof (holds_record_nonneg e st).
    lia.
  - cbn [serve].
    destruct (serve1 st q) as [a st'] eqn:Hq.
    destruct (serve qs st') as [answers st''] eqn:Hqs.
    specialize (IH st'). rewrite Hqs in IH. cbn [fst] in *.
    rewrite !count_cons.
    destruct q as [w email | w email body_otp]; cbn [serve1] in Hq;
      injection Hq as <- <-.
    + pose proof (send_accounting w email e st) as [H1 H2].
      cbn [is_success is_invalid Z.b2z]. lia.
    + pose proof (verify_accounting w email body_otp e st) as [H1 H2].
      cbn [is_issue Z.b2z]. lia.
Qed.

Lemma serve_run (qs : list request) :
  forall st, snd (serve qs st) = fold_left handle qs st.
Proof.
  induction qs as [|q qs IH]; intros st; [reflexivity|].
  cbn [serve fold_left]. rewrite <- IH.
  assert (Hq : serve1 st q = (fst (serve1 st q), handle st q))
    by (destruct q; reflexivity).
  rewrite Hq. destruct (serve qs (handle st q)). reflexivity.
Qed.

(** X11: a code is good for one verification: in the answers to any
    sequence of requests, an identity gets at most as many Success
    answers as codes were issued to it. *)
Theorem successes_bounded_by_issues (e : jsstring) (qs : list request) :
  count (is_success e) (fst (serve qs ∅))
    <= count (is_issue e) (fst (serve qs ∅)).
Proof.
  destruct (serve_accounting e qs ∅) as [H _].
  unfold holds_record in H. rewrite lookup_empty in H. lia.
Qed.

(** X12: a code is good for three failed comparisons: in the answers
    to any sequence of requests, an identity gets at most three
    Invalid answers per code issued to it. *)
Theorem failures_bounded_by_issues (e : jsstring) (qs : list request) :
  count (is_invalid e) (fst (serve qs ∅))
    <= 3 * count (is_issue e) (fst (serve qs ∅)).
Proof.
  destruct (serve_accounting e qs ∅) as [_ H].
  unfold budget in H. rewrite lookup_empty in H. lia.
Qed.

(** ** The Render variant *)

Lemma render_verify_step_mismatch (w : Render.Env) (email body_otp : jsstring)
    (st : gmap jsstring OtpRecord) (r : OtpRecord) :
  st !! email = Some r ->
  Render.now w <= expiresAt r -> attempts r + 1 < 3 ->
  otp r <> body_otp ->
  Render.verify_otp w email body_otp st
    = (Render.Invalid (attempts r + 1), <[email := bump r]> st).
Proof.
  intros Hst Hlive Hleft Hne. unfold Render.verify_otp. rewrite Hst.
  destruct (Z.gtb_spec (Render.now w) (expiresAt r)); [lia|].
  rewrite bool_decide_eq_false_2 by exact Hne.
  cbn [bump attempts].
  destruct (Z.geb_spec (attempts r + 1) 3); [lia | reflexivity].
Qed.

Lemma render_verify_step_match (w : Render.Env) (email body_otp : jsstring)
    (st : gmap jsstring OtpRecord) (r : OtpRecord) :
  st !! email = Some r ->
  Render.now w <= expiresAt r -> otp r = body_otp ->
  Render.verify_otp w email body_otp st = (Render.Success, delete email st).
Proof.
  intros Hst Hlive Heq. unfold Render.verify_otp. rewrite Hst.
  destruct (Z.gtb_spec (Render.now w) (expiresAt r)); [lia|].
  rewrite bool_decide_eq_true_2 by exact Heq. reflexivity.
Qed.

(** X13: in the Render variant a fresh record takes three wrong codes:
    the first two are answered Invalid with the count of failures so
    far, the third deletes the record, and after it even the right
    code is answered NotFound. *)
Theorem render_three_strikes
    (w1 w2 w3 w4 : Render.Env) (email c1 c2 c3 : jsstring)
    (st : gmap jsstring OtpRecord) (r : OtpRecord) :
  st !! email = Some r -> attempts r = 0 ->
  Render.now w1 <= expiresAt r -> Render.now w2 <= expiresAt r ->
  Render.now w3 <= expiresAt r ->
  c1 <> otp r -> c2 <> otp r -> c3 <> otp r ->
  let '(a1, st1) := Render.verify_otp w1 email c1 st in
  let '(a2, st2) := Render.verify_otp w2 email c2 st1 in
  let '(a3, st3) := Render.verify_otp w3 email c3 st2 in
  a1 = Render.Invalid 1 /\ a2 = Render.Invalid 2 /\
  a3 = Render.TooManyAttempts /\ st3 = delete email st /\
  Render.verify_otp w4 email (otp r) st3 = (Render.NotFound, st3).
Proof.
  intros Hst Ha H1 H2 H3 N1 N2 N3.
  rewrite (render_verify_step_mismatch w1 email c1 st r)
    by (assumption || lia || congruence).
  rewrite (render_verify_step_mismatch w2 email c2 _ (bump r))
    by (apply lookup_insert_eq || (cbn [bump expiresAt attempts otp]; lia)
        || (cbn [bump otp]; congruence)).
  rewrite (render_verify_step_limit w3 email c3 _ (bump (bump r)))
    by (apply lookup_insert_eq || (cbn [bump expiresAt attempts otp]; lia)
        || (cbn [bump otp]; congruence)).
  rewrite !delete_insert_eq. cbn [bump attempts]. rewrite Ha.
  repeat split.
  unfold Render.verify_otp. rewrite lookup_delete_eq. reflexivity.
Qed.

Lemma render_three_strikes_witness :
  let '(a1, st1) := Render.verify_otp (render_env_at 1000 0) alice
                      (js "111111") (store_with 0) in
  let '(a2, st2) := Render.verify_otp (render_env_at 2000 0) alice
                      (js "222222") st1 in
  let '(a3, st3) := Render.verify_otp (render_env_at 3000 0) alice
                      (js "333333") st2 in
  a1 = Render.Invalid 1 /\ a2 = Render.Invalid 2 /\
  a3 = Render.TooManyAttempts /\ st3 = delete alice (store_with 0) /\
  Render.verify_otp (render_env_at 4000 0) alice (otp (record_with 0)) st3
    = (Render.NotFound, st3).
Proof.
  apply (render_three_strikes (render_env_at 1000 0) (render_env_at 2000 0)
           (render_env_at 3000 0) (render_env_at 4000 0) alice
           (js "111111") (js "222222") (js "333333")
           (store_with 0) (record_with 0)).
  - vm_compute. reflexivity.
  - vm_compute. reflexivity.
  - vm_compute. discriminate.
  - vm_compute. discriminate.
  - vm_compute. discriminate.
  - vm_compute. discriminate.
  - vm_compute. discriminate.
  - vm_compute. discriminate.
Defined.

(** X14: in the Render variant the record is stored before the mail is
    handed over: when [sendMail] fails the caller gets a 500 answer,
    yet the record is in the store and its code verifies. *)
Theorem render_send_failure_keeps_record
    (w : Render.Env) (w' : Render.Env) (email : jsstring)
    (st : gmap jsstring OtpRecord) :
  Render.limited w = false -> email <> [] -> Render.transporter w = true ->
  Render.mail w <> Render.Delivered ->
  Render.now w' <= Render.now w + 300000 ->
  let '(a, st') := Render.send_otp w email st in
  (a = Render.AuthFailed \/ a = Render.MailTimeout \/ a = Render.SendFailed) /\
  st' !! email = Some {| otp := generateOTP (Render.int_draw w);
                         expiresAt := Render.now w + 300000;
                         attempts := 0 |} /\
  fst (Render.verify_otp w' email (generateOTP (Render.int_draw w)) st')
    = Render.Success.
Proof.
  intros Hlim He Htr Hmail Hnow. unfold Render.send_otp.
  rewrite Hlim, (falsy_false email He), Htr. cbn [negb].
  change (5 * 60 * 1000) with 300000.
  set (r := {| otp := generateOTP (Render.int_draw w);
               expiresAt := Render.now w + 300000; attempts := 0 |}).
  assert (Hv : fst (Render.verify_otp w' email
                      (generateOTP (Render.int_draw w)) (<[email := r]> st))
               = Render.Success).
  { rewrite (render_verify_step_match w' email _ _ r);
      [reflexivity | apply lookup_insert_eq | exact Hnow | reflexivity]. }
  destruct (Render.mail w); [congruence| | |];
    (split; [auto | split; [apply lookup_insert_eq | exact Hv]]).
Qed.

Lemma render_send_failure_keeps_record_witness :
  let w := {| Render.now := 0; Render.int_draw := 23456;
              Render.limited := false; Render.transporter := true;
              Render.mail := Render.ETIMEDOUT;
              Render.development := false |} in
  let '(a, st') := Render.send_otp w alice ∅ in
  (a = Render.AuthFailed \/ a = Render.MailTimeout \/ a = Render.SendFailed) /\
  st' !! alice = Some {| otp := generateOTP (Render.int_draw w);
                         expiresAt := Render.now w + 300000;
                         attempts := 0 |} /\
  fst (Render.verify_otp (render_env_at 1000 0) alice
         (generateOTP (Render.int_draw w)) st')
    = Render.Success.
Proof.
  apply (render_send_failure_keeps_record
           {| Render.now := 0; Render.int_draw := 23456;
              Render.limited := false; Render.transporter := true;
              Render.mail := Render.ETIMEDOUT;
              Render.development := false |}
           (render_env_at 1000 0) alice ∅).
  - reflexivity.
  - vm_compute. discriminate.
  - reflexivity.
  - vm_compute. discriminate.
  - vm_compute. discriminate.
Defined.

(** X15: the Render variant does not look whether a code was sent at
    all: an empty code against a live record counts as a failed
    attempt, where the first application answers 'Email and OTP are
    required' and leaves the record alone. *)
Theorem empty_code_render_counts_server_ignores
    (rw : Render.Env) (w : Env) (email : jsstring)
    (st : gmap jsstring OtpRecord) (r : OtpRecord) :
  st !! email = Some r ->
  Render.now rw <= expiresAt r -> attempts r + 1 < 3 -> otp r <> [] ->
  Render.verify_otp rw email [] st
    = (Render.Invalid (attempts r + 1), <[email := bump r]> st) /\
  verify_otp w email [] st = (Required, st).
Proof.
  intros Hst Hlive Hleft Hne. split.
  - apply render_verify_step_mismatch; assumption.
  - apply verify_required. right. reflexivity.
Qed.

Lemma empty_code_render_counts_server_ignores_witness :
  Render.verify_otp (render_env_at 1000 0) alice [] (store_with 0)
    = (Render.Invalid (attempts (record_with 0) + 1),
       <[alice := bump (record_with 0)]> (store_with 0)) /\
  verify_otp (env_at 1000 0) alice [] (store_with 0)
    = (Required, store_with 0).
Proof.
  apply (empty_code_render_counts_server_ignores (render_env_at 1000 0)
           (env_at 1000 0) alice (store_with 0) (record_with 0)).
  - vm_compute. reflexivity.
  - vm_compute. discriminate.
  - vm_compute. reflexivity.
  - vm_compute. discriminate.
Defined.

(** X16: in the Render variant too, a send or a verify for one identity
    leaves the entries of all other identities as they were. *)
Theorem render_other_identities_untouched
    (X Y : jsstring) (st : gmap jsstring OtpRecord) :
  X <> Y ->
  (forall w, snd (Render.send_otp w X st) !! Y = st !! Y) /\
  (forall w body_otp, snd (Render.verify_otp w X body_otp st) !! Y = st !! Y).
Proof.
  intros Hne. split.
  - intros w. unfold Render.send_otp.
    repeat case_match; cbn [snd]; rewrite ?lookup_insert_ne by exact Hne;
      reflexivity.
  - intros w body_otp. unfold Render.verify_otp.
    repeat case_match; cbn [snd];
      rewrite ?lookup_delete_ne, ?lookup_insert_ne by exact Hne; reflexivity.
Qed.

Lemma render_other_identities_untouched_witness :
  snd (Render.send_otp (render_env_at 1000 5) bob (store_with 1)) !! alice
    = store_with 1 !! alice /\
  snd (Render.verify_otp (render_env_at 1000 0) bob (js "123456")
         (store_with 1)) !! alice
    = store_with 1 !! alice.
Proof.
  destruct (render_other_identities_untouched bob alice (store_with 1))
    as [Hs Hv].
  { vm_compute. discriminate. }
  split; [apply Hs | apply Hv].
Defined.

(** ** The application without an attempts counter *)

Lemma minimal_verify_step_mismatch (w : Minimal.Env) (email body_otp : jsstring)
    (st : gmap jsstring Minimal.OtpEntry) (r : Minimal.OtpEntry) :
  email <> [] -> body_otp <> [] ->
  st !! email = Some r ->
  Minimal.now w <= Minimal.expiresAt r -> Minimal.otp r <> body_otp ->
  Minimal.verify_otp w email body_otp st = (Minimal.Invalid, st).
Proof.
  intros He Ho Hst Hlive Hne. unfold Minimal.verify_otp.
  rewrite !falsy_false, Hst by assumption. cbn [orb].
  destruct (Z.gtb_spec (Minimal.now w) (Minimal.expiresAt r)); [lia|].
  rewrite bool_decide_eq_false_2 by exact Hne. reflexivity.
Qed.

Lemma minimal_verify_step_match (w : Minimal.Env) (email body_otp : jsstring)
    (st : gmap jsstring Minimal.OtpEntry) (r : Minimal.OtpEntry) :
  email <> [] -> body_otp <> [] ->
  st !! email = Some r ->
  Minimal.now w <= Minimal.expiresAt r -> Minimal.otp r = body_otp ->
  Minimal.verify_otp w email body_otp st = (Minimal.Success, delete email st).
Proof.
  intros He Ho Hst Hlive Heq. unfold Minimal.verify_otp.
  rewrite !falsy_false, Hst by assumption. cbn [orb].
  destruct (Z.gtb_spec (Minimal.now w) (Minimal.expiresAt r)); [lia|].
  rewrite bool_decide_eq_true_2 by exact Heq. reflexivity.
Qed.

(** X17: the second application puts no limit on guesses: any number
    of wrong codes submitted before expiry are all answered Invalid and
    leave the store exactly as it was, so the right code still succeeds
    afterwards. *)
Theorem minimal_unlimited_guesses
    (calls : list (Minimal.Env * jsstring)) (w : Minimal.Env)
    (email : jsstring) (st : gmap jsstring Minimal.OtpEntry)
    (r : Minimal.OtpEntry) :
  email <> [] -> Minimal.otp r <> [] ->
  st !! email = Some r ->
  Forall (fun call => snd call <> [] /\ snd call <> Minimal.otp r /\
                      Minimal.now (fst call) <= Minimal.expiresAt r) calls ->
  Minimal.now w <= Minimal.expiresAt r ->
  Minimal.verify_each calls email st
    = (repeat Minimal.Invalid (length calls), st) /\
  Minimal.verify_otp w email (Minimal.otp r)
      (snd (Minimal.verify_each calls email st))
    = (Minimal.Success, delete email st).
Proof.
  intros He Hr Hst Hcalls Hlive.
  assert (Hall : Minimal.verify_each calls email st
                 = (repeat Minimal.Invalid (length calls), st)).
  { induction Hcalls as [|[w0 c] calls (Hc & Hne & Hw) _ IH]; [reflexivity|].
    cbn [fst snd] in *. cbn [Minimal.verify_each].
    rewrite (minimal_verify_step_mismatch w0 email c st r)
      by (assumption || congruence).
    rewrite IH. reflexivity. }
  rewrite Hall. cbn [snd]. split; [reflexivity|].
  apply (minimal_verify_step_match w email _ st r); auto.
Qed.

Lemma minimal_unlimited_guesses_witness :
  let st : gmap jsstring Minimal.OtpEntry :=
    {[ alice := {| Minimal.otp := js "123456";
                   Minimal.expiresAt := 300000 |} ]} in
  let w t := {| Minimal.now := t; Minimal.int_draw := 0;
                Minimal.mail_delivered := true |} in
  let calls := [(w 1, js "000000"); (w 2, js "000001"); (w 3, js "000002");
                (w 4, js "000003"); (w 5, js "000004")] in
  Minimal.verify_each calls alice st
    = (repeat Minimal.Invalid (length calls), st) /\
  Minimal.verify_otp (w 6) alice (js "123456")
      (snd (Minimal.verify_each calls alice st))
    = (Minimal.Success, delete alice st).
Proof.
  cbn zeta.
  apply (minimal_unlimited_guesses _ _ alice _
           {| Minimal.otp := js "123456"; Minimal.expiresAt := 300000 |}).
  - vm_compute. discriminate.
  - vm_compute. discriminate.
  - vm_compute. reflexivity.
  - repeat constructor; vm_compute; discriminate.
  - vm_compute. discriminate.
Defined.

(** X18: the second application stores the record before mailing it:
    when [sendMail] fails the answer is 'Failed to send OTP' and the
    stored code still verifies. *)
Theorem minimal_send_failure_keeps_record
    (w w' : Minimal.Env) (email : jsstring)
    (st : gmap jsstring Minimal.OtpEntry) :
  email <> [] -> Minimal.mail_delivered w = false ->
  Minimal.now w' <= Minimal.now w + 300000 ->
  let '(a, st') := Minimal.send_otp w email st in
  a = Minimal.SendFailed /\
  Minimal.verify_otp w' email (generateOTP (Minimal.int_draw w)) st'
    = (Minimal.Success, delete email st).
Proof.
  intros He Hmail Hnow. unfold Minimal.send_otp.
  rewrite (falsy_false email He), Hmail.
  split; [reflexivity|].
  rewrite (minimal_verify_step_match w' email _ _
             {| Minimal.otp := generateOTP (Minimal.int_draw w);
                Minimal.expiresAt := Minimal.now w + 5 * 60 * 1000 |});
    [ rewrite delete_insert_eq; reflexivity
    | exact He | apply generateOTP_nonempty | apply lookup_insert_eq
    | cbn [Minimal.expiresAt]; lia | reflexivity ].
Qed.

Lemma minimal_send_failure_keeps_record_witness :
  let w t ok := {| Minimal.now := t; Minimal.int_draw := 23456;
                   Minimal.mail_delivered := ok |} in
  let '(a, st') := Minimal.send_otp (w 0 false) alice ∅ in
  a = Minimal.SendFailed /\
  Minimal.verify_otp (w 1000 true) alice
      (generateOTP (Minimal.int_draw (w 0 false))) st'
    = (Minimal.Success, delete alice ∅).
Proof.
  cbn zeta.
  apply (minimal_send_failure_keeps_record
           {| Minimal.now := 0; Minimal.int_draw := 23456;
              Minimal.mail_delivered := false |}
           {| Minimal.now := 1000; Minimal.int_draw := 23456;
              Minimal.mail_delivered := true |} alice ∅).
  - vm_compute. discriminate.
  - reflexivity.
  - vm_compute. discriminate.
Defined.

(** ** The application that validates with Joi *)

Lemma otpPattern_nonempty (s : jsstring) :
  regex_test otpPattern s = true -> s <> [].
Proof. intros H ->. discriminate. Qed.

(** X19: on a request that passes [otpSchema] the third application
    answers and updates the store exactly as the first one does. *)
Theorem validated_agrees_with_server
    (string_email : jsstring -> bool) (vw : Validated.Env) (w : Env)
    (email body_otp : jsstring) (st : gmap jsstring OtpRecord) :
  Validated.otpSchema string_email email body_otp = true ->
  Validated.now vw = now w ->
  Validated.byte_draw vw = byte_draw w ->
  as_server (fst (Validated.verify_otp string_email vw email body_otp st))
    = Some (fst (verify_otp w email body_otp st)) /\
  snd (Validated.verify_otp string_email vw email body_otp st)
    = snd (verify_otp w email body_otp st).
Proof.
  intros Hok Hnow Hbytes. unfold Validated.verify_otp, verify_otp.
  rewrite Hok, Hnow, Hbytes. cbn [negb].
  unfold Validated.otpSchema, Validated.emailSchema in Hok.
  apply andb_true_iff in Hok as [Hem Hpat].
  apply andb_true_iff in Hem as [Hne _]. apply negb_true_iff in Hne.
  rewrite Hne, (falsy_false body_otp (otpPattern_nonempty _ Hpat)).
  cbn [orb]. repeat case_match; cbn [fst snd as_server]; split; reflexivity.
Qed.

Lemma validated_agrees_with_server_witness :
  let vw := {| Validated.now := 1000; Validated.int_draw := 0;
               Validated.byte_draw := fun _ => x2a;
               Validated.limited := false;
               Validated.mail := Render.Delivered |} in
  as_server (fst (Validated.verify_otp (regex_test emailRegex) vw alice
                    (js "000000") (store_with 1)))
    = Some (fst (verify_otp (env_at 1000 0) alice (js "000000") (store_with 1)))
  /\
  snd (Validated.verify_otp (regex_test emailRegex) vw alice (js "000000")
         (store_with 1))
    = snd (verify_otp (env_at 1000 0) alice (js "000000") (store_with 1)).
Proof.
  cbn zeta.
  apply (validated_agrees_with_server (regex_test emailRegex)
           {| Validated.now := 1000; Validated.int_draw := 0;
              Validated.byte_draw := fun _ => x2a;
              Validated.limited := false;
              Validated.mail := Render.Delivered |}
           (env_at 1000 0) alice (js "000000") (store_with 1)).
  - vm_compute. reflexivity.
  - reflexivity.
  - reflexivity.
Defined.

(** X20: a code that is not six digits never reaches the store of the
    third application: it is answered 'Validation failed' and costs no
    attempt, where the first application counts it as a failed attempt
    against a live record. *)
Theorem malformed_code_validated_rejects_server_counts
    (string_email : jsstring -> bool) (vw : Validated.Env) (w : Env)
    (email body_otp : jsstring) (st : gmap jsstring OtpRecord)
    (r : OtpRecord) :
  email <> [] -> body_otp <> [] ->
  regex_test otpPattern body_otp = false ->
  st !! email = Some r ->
  regex_test otpPattern (otp r) = true ->
  now w <= expiresAt r -> attempts r < 3 ->
  Validated.verify_otp string_email vw email body_otp st
    = (Validated.ValidationFailed, st) /\
  verify_otp w email body_otp st
    = (Invalid (2 - attempts r), <[email := bump r]> st).
Proof.
  intros He Ho Hbad Hst Hgood Hlive Hleft. split.
  - unfold Validated.verify_otp, Validated.otpSchema.
    rewrite Hbad, andb_false_r. reflexivity.
  - apply verify_step_mismatch; try assumption. congruence.
Qed.

Lemma malformed_code_validated_rejects_server_counts_witness :
  let vw := {| Validated.now := 1000; Validated.int_draw := 0;
               Validated.byte_draw := fun _ => x2a;
               Validated.limited := false;
               Validated.mail := Render.Delivered |} in
  Validated.verify_otp (regex_test emailRegex) vw alice (js "12345")
      (store_with 0)
    = (Validated.ValidationFailed, store_with 0) /\
  verify_otp (env_at 1000 0) alice (js "12345") (store_with 0)
    = (Invalid (2 - attempts (record_with 0)),
       <[alice := bump (record_with 0)]> (store_with 0)).
Proof.
  cbn zeta.
  apply (malformed_code_validated_rejects_server_counts
           (regex_test emailRegex) _ (env_at 1000 0) alice (js "12345")
           (store_with 0) (record_with 0)).
  - vm_compute. discriminate.
  - vm_compute. discriminate.
  - vm_compute. reflexivity.
  - vm_compute. reflexivity.
  - vm_compute. reflexivity.
  - vm_compute. discriminate.
  - vm_compute. reflexivity.
Defined.

(** ** The page script *)

Lemma strip_non_digits_digits (s : jsstring) :
  Forall (fun c => is_digit c = true) (Page.strip_non_digits s).
Proof.
  unfold Page.strip_non_digits. apply List.Forall_forall.
  intros c Hc. apply List.filter_In in Hc. apply Hc.
Qed.

Lemma strip_non_digits_id (s : jsstring) :
  Forall (fun c => is_digit c = true) s -> Page.strip_non_digits s = s.
Proof.
  unfold Page.strip_non_digits.
  induction 1 as [|c s Hc _ IH]; [reflexivity|].
  cbn [List.filter]. rewrite Hc, IH. reflexivity.
Qed.

Lemma formatOTP_value (value : jsstring) :
  fst (Page.formatOTP value)
    = Page.substring0 6 (Page.strip_non_digits value).
Proof.
  unfold Page.formatOTP, Page.substring0. cbn [fst].
  destruct (Nat.ltb_spec 6 (length (Page.strip_non_digits value)));
    [reflexivity|].
  symmetry. apply firstn_all2. assumption.
Qed.

(** X21: [formatOTP] leaves in the input the first six decimal digits
    of what was typed, in order, and nothing else; it lets go of the
    input exactly when six digits are there; formatting again changes
    nothing. *)
Theorem formatOTP_spec (value : jsstring) :
  let '(v, blur) := Page.formatOTP value in
  v = firstn 6 (List.filter is_digit value) /\
  Forall (fun c => is_digit c = true) v /\
  (length v <= 6)%nat /\
  (blur = true <-> length v = 6%nat) /\
  Page.formatOTP v = (v, blur).
Proof.
  destruct (Page.formatOTP value) as [v blur] eqn:E.
  assert (Hv : v = firstn 6 (List.filter is_digit value)).
  { pose proof (formatOTP_value value) as F. rewrite E in F. exact F. }
  assert (Hb : blur = (length v =? 6)%nat).
  { unfold Page.formatOTP in E. injection E as <- <-. reflexivity. }
  assert (Hd : Forall (fun c => is_digit c = true) v).
  { rewrite Hv. apply Forall_take, (strip_non_digits_digits value). }
  assert (Hl : (length v <= 6)%nat).
  { rewrite Hv, length_take. lia. }
  split; [exact Hv|]. split; [exact Hd|]. split; [exact Hl|]. split.
  - rewrite Hb. apply Nat.eqb_eq.
  - unfold Page.formatOTP. rewrite (strip_non_digits_id v Hd).
    destruct (Nat.ltb_spec 6 (length v)); [lia|]. rewrite Hb. reflexivity.
Qed.

(** X22: [formatOTP] leaves a value as it is exactly when it is at most
    six decimal digits; in particular a code from [generateOTP] goes
    through unchanged and makes the input let go. *)
Theorem formatOTP_fixed_points (v : jsstring) :
  (fst (Page.formatOTP v) = v <->
   Forall (fun c => is_digit c = true) v /\ (length v <= 6)%nat) /\
  (forall draw, Page.formatOTP (generateOTP draw) = (generateOTP draw, true)).
Proof.
  assert (Hfix : forall u : jsstring,
            Forall (fun c => is_digit c = true) u -> (length u <= 6)%nat ->
            Page.formatOTP u = (u, (length u =? 6)%nat)).
  { intros u Hd Hl. unfold Page.formatOTP.
    rewrite (strip_non_digits_id u Hd).
    destruct (Nat.ltb_spec 6 (length u)); [lia | reflexivity]. }
  split.
  - split.
    + intros E. pose proof (formatOTP_spec v) as H.
      destruct (Page.formatOTP v) as [v' blur]. cbn [fst] in E. subst v'.
      destruct H as (_ & Hd & Hl & _). split; assumption.
    + intros [Hd Hl]. rewrite (Hfix v Hd Hl). reflexivity.
  - intros draw. destruct (generateOTP_shape draw) as (Hlen & Hd & _).
    rewrite (Hfix _ Hd) by lia. rewrite Hlen. reflexivity.
Qed.

(** X23: [copyOTP] pastes exactly when the clipboard text holds at
    least six decimal digits, and then pastes the first six of them, a
    string that passes the code pattern. *)
Theorem copyOTP_spec (text : jsstring) :
  match Page.copyOTP (Some text) with
  | Page.Pasted otp =>
      (6 <= length (List.filter is_digit text))%nat /\
      otp = firstn 6 (List.filter is_digit text) /\
      regex_test otpPattern otp = true
  | Page.NoValidOtp => (length (List.filter is_digit text) < 6)%nat
  | Page.ClipboardFailed => False
  end.
Proof.
  unfold Page.copyOTP, Page.substring0, Page.strip_non_digits.
  set (ds := List.filter is_digit text).
  pose proof (strip_non_digits_digits text) as Hd. fold ds in Hd.
  unfold Page.strip_non_digits in Hd. fold ds in Hd.
  destruct (Nat.eqb_spec (length (firstn 6 ds)) 6) as [E|E];
    rewrite length_take in E.
  - split; [lia|]. split; [reflexivity|].
    apply otpPattern_accepts_exactly. split.
    + rewrite length_take. lia.
    + apply Forall_take, Hd.
  - lia.
Qed.

Lemma trimStart_head (s : jsstring) (c : code_unit) (rest : jsstring) :
  Page.trimStart s = c :: rest -> is_space c = false.
Proof.
  induction s as [|d s IH]; cbn [Page.trimStart]; [discriminate|].
  destruct (is_space d) eqn:Hd; [exact IH|].
  intros [= <- _]. exact Hd.
Qed.

Lemma trimStart_suffix (s : jsstring) :
  exists pre, s = pre ++ Page.trimStart s /\
              Forall (fun c => is_space c = true) pre.
Proof.
  induction s as [|d s (pre & E & Hpre)]; cbn [Page.trimStart].
  - exists []. split; [reflexivity | constructor].
  - destruct (is_space d) eqn:Hd.
    + exists (d :: pre). split; [cbn [app]; congruence|].
      constructor; assumption.
    + exists []. split; [reflexivity | constructor].
Qed.

(** X24: [trim] cuts white space, and only white space, from both ends:
    the string is [pre ++ trim s ++ post] with [pre] and [post] all
    white space, and [trim s] neither starts nor ends with white
    space. *)
Theorem trim_spec (s : jsstring) :
  (exists pre post,
     s = pre ++ Page.trim s ++ post /\
     Forall (fun c => is_space c = true) pre /\
     Forall (fun c => is_space c = true) post) /\
  (forall c rest, Page.trim s = c :: rest -> is_space c = false) /\
  (forall init c, Page.trim s = init ++ [c] -> is_space c = false).
Proof.
  unfold Page.trim.
  destruct (trimStart_suffix s) as (pre & Es & Hpre).
  set (t := Page.trimStart s) in *.
  destruct (trimStart_suffix (rev t)) as (pre2 & Et & Hpre2).
  set (u := Page.trimStart (rev t)) in *.
  assert (Ht : t = rev u ++ rev pre2).
  { rewrite <- rev_app_distr, <- Et, rev_involutive. reflexivity. }
  split; [|split].
  - exists pre, (rev pre2). split; [congruence|]. split; [exact Hpre|].
    apply Forall_rev, Hpre2.
  - intros c rest E. rewrite E in Ht. cbn [app] in Ht.
    apply (trimStart_head s c (rest ++ rev pre2)). exact Ht.
  - intros init c E.
    assert (Hu : u = c :: rev init).
    { rewrite <- (rev_involutive u), E, rev_app_distr. reflexivity. }
    apply (trimStart_head (rev t) c (rev init)). exact Hu.
Qed.

(** X25: a send the page posts is never turned away by the first
    application: the address it posts is the trimmed field, it passes
    the format check of the server, and a record is stored for it. *)
Theorem page_send_is_accepted (field email : jsstring) :
  Page.sendOTP field = Page.PostSend email ->
  email = Page.trim field /\
  forall w st,
    send_otp w email st =
      (SendOk (smtp_ready w && mail_delivered w)
              (if production w then None else Some (generateOTP (int_draw w))),
       <[email := {| otp := generateOTP (int_draw w);
                     expiresAt := now w + 300000;
                     attempts := 0 |}]> st).
Proof.
  unfold Page.sendOTP.
  destruct (falsy (Page.trim field)); [discriminate|].
  destruct (regex_test emailRegex (Page.trim field)) eqn:Hfmt;
    [|discriminate].
  intros [= <-]. split; [reflexivity|].
  intros w st. apply send_step, Hfmt.
Qed.

Lemma page_send_is_accepted_witness :
  alice = Page.trim (js "  a@example.com ") /\
  forall w st,
    send_otp w alice st =
      (SendOk (smtp_ready w && mail_delivered w)
              (if production w then None else Some (generateOTP (int_draw w))),
       <[alice := {| otp := generateOTP (int_draw w);
                     expiresAt := now w + 300000;
                     attempts := 0 |}]> st).
Proof.
  apply (page_send_is_accepted (js "  a@example.com ") alice).
  vm_compute. reflexivity.
Defined.

(** X26: a verify the page posts carries a non-empty address and a
    code of six code units, so the first application never answers it
    with 'Email and OTP are required'; when the code field went through
    [formatOTP], the code also passes the pattern of the third
    application. *)
Theorem page_verify_is_well_formed (email_field otp_field email code : jsstring) :
  Page.verifyOTP email_field otp_field = Page.PostVerify email code ->
  email = Page.trim email_field /\ code = otp_field /\
  length code = 6%nat /\
  (forall w st, fst (verify_otp w email code st) <> Required) /\
  (forall typed, otp_field = fst (Page.formatOTP typed) ->
                 regex_test otpPattern code = true).
Proof.
  unfold Page.verifyOTP.
  destruct (falsy (Page.trim email_field)) eqn:He; [discriminate|].
  destruct (falsy otp_field) eqn:Ho; [discriminate|]. cbn [orb].
  destruct (Nat.eqb_spec (length otp_field) 6) as [Hlen|]; [|discriminate].
  cbn [negb]. intros [= <- <-].
  split; [reflexivity|]. split; [reflexivity|]. split; [exact Hlen|]. split.
  - intros w st. unfold verify_otp. rewrite He, Ho. cbn [orb].
    repeat case_match; cbn [fst]; discriminate.
  - intros typed E. apply otpPattern_accepts_exactly.
    split; [exact Hlen|].
    pose proof (formatOTP_spec typed) as H.
    destruct (Page.formatOTP typed) as [v blur]. cbn [fst] in E. subst v.
    apply H.
Qed.

Lemma page_verify_is_well_formed_witness :
  alice = Page.trim (js " a@example.com") /\
  js "123456" = fst (Page.formatOTP (js "12 34-56")) /\
  length (js "123456") = 6%nat /\
  (forall w st, fst (verify_otp w alice (js "123456") st) <> Required) /\
  (forall typed, fst (Page.formatOTP (js "12 34-56"))
                   = fst (Page.formatOTP typed) ->
                 regex_test otpPattern (js "123456") = true).
Proof.
  apply (page_verify_is_well_formed (js " a@example.com")
           (fst (Page.formatOTP (js "12 34-56"))) alice (js "123456")).
  vm_compute. reflexivity.
Defined.

(** X27: what the page shows after a verify against the first
    application: the success modal with the token on Success;
    'Attempts remaining: 2' in green after the first wrong code and
    'Attempts remaining: 1' in amber after the second; and after every
    other failure, the third wrong code, an expired, exhausted or
    missing record and a missing field alike, 'No attempts remaining'
    in red. *)
Theorem page_counter_after_verify
    (w : Env) (email body_otp : jsstring) (st : gmap jsstring OtpRecord) :
  attempts_within 0 3 st ->
  page_after_verify (fst (verify_otp w email body_otp st))
  = match fst (verify_otp w email body_otp st) with
    | Success token => SuccessModal token
    | Invalid 2 => ErrorShown (Page.AttemptsRemaining 2 Page.Green)
    | Invalid 1 => ErrorShown (Page.AttemptsRemaining 1 Page.Amber)
    | _ => ErrorShown (Page.NoAttemptsRemaining Page.Red)
    end.
Proof.
  intros Hst. unfold verify_otp.
  destruct (falsy email || falsy body_otp); [reflexivity|].
  destruct (st !! email) as [r|] eqn:Hr; [|reflexivity].
  destruct (now w >? expiresAt r); [reflexivity|].
  destruct (Z.geb_spec (attempts r) 3); [reflexivity|].
  destruct (bool_decide (otp (bump r) = body_otp)); [reflexivity|].
  pose proof (Hst email r Hr) as Hb. cbn [fst bump attempts].
  assert (Ha : attempts r = 0 \/ attempts r = 1 \/ attempts r = 2) by lia.
  destruct Ha as [-> | [-> | ->]]; reflexivity.
Qed.

Lemma page_counter_after_verify_witness :
  page_after_verify
    (fst (verify_otp (env_at 1000 0) alice (js "000000") (store_with 1)))
  = ErrorShown (Page.AttemptsRemaining 1 Page.Amber).
Proof.
  rewrite (page_counter_after_verify (env_at 1000 0) alice (js "000000")
             (store_with 1)).
  - vm_compute. reflexivity.
  - intros e r Hr. unfold store_with in Hr.
    apply lookup_singleton_Some in Hr as [_ <-]. vm_compute.
    split; discriminate.
Defined.

(** ** SMTP start-up *)

Lemma try_configs_spec (verify : smtp_config -> bool) (cs : list smtp_config) :
  match try_configs verify cs with
  | (Some c, enabled) =>
      enabled = true /\ verify c = true /\
      exists before after,
        cs = before ++ c :: after /\
        Forall (fun c' => verify c' = false) before
  | (None, enabled) =>
      enabled = false /\ Forall (fun c' => verify c' = false) cs
  end.
Proof.
  induction cs as [|c cs IH]; cbn [try_configs].
  - split; [reflexivity | constructor].
  - destruct (verify c) eqn:Hc.
    + split; [reflexivity|]. split; [exact Hc|].
      exists [], cs. split; [reflexivity | constructor].
    + destruct (try_configs verify cs) as [[c0|] enabled].
      * destruct IH as (He & Hv & before & after & -> & Hb).
        split; [exact He|]. split; [exact Hv|].
        exists (c :: before), after. split; [reflexivity|].
        constructor; assumption.
      * destruct IH as [He Hall]. split; [exact He|].
        constructor; assumption.
Qed.

(** X28: [initializeSMTP] ends with SMTP enabled exactly when it ends
    with a transporter; the transporter is then the first of the
    configurations (port 587, port 465, port 25, in this order) whose
    connection test passes, and it carries the two credentials.  It
    ends with neither when a credential is unset or empty, or when
    every connection test fails. *)
Theorem initializeSMTP_spec
    (GMAIL_USER GMAIL_APP_PASSWORD : option jsstring)
    (verify : smtp_config -> bool) :
  match initializeSMTP GMAIL_USER GMAIL_APP_PASSWORD verify with
  | (Some c, smtpEnabled) =>
      smtpEnabled = true /\ verify c = true /\
      GMAIL_USER = Some (auth_user c) /\ auth_user c <> [] /\
      GMAIL_APP_PASSWORD = Some (auth_pass c) /\ auth_pass c <> [] /\
      (port c = 587 \/ port c = 465 \/ port c = 25) /\
      exists before after,
        configs (auth_user c) (auth_pass c) = before ++ c :: after /\
        Forall (fun c' => verify c' = false) before
  | (None, smtpEnabled) =>
      smtpEnabled = false /\
      (unset GMAIL_USER = true \/ unset GMAIL_APP_PASSWORD = true \/
       Forall (fun c' => verify c' = false)
         (configs (default [] GMAIL_USER) (default [] GMAIL_APP_PASSWORD)))
  end.
Proof.
  unfold initializeSMTP.
  destruct (unset GMAIL_USER) eqn:Hu; [cbn [orb]; auto|].
  destruct (unset GMAIL_APP_PASSWORD) eqn:Hp; [cbn [orb]; auto|].
  cbn [orb].
  destruct GMAIL_USER as [user|]; [|discriminate].
  destruct GMAIL_APP_PASSWORD as [pass|]; [|discriminate].
  cbn [unset default from_option id] in *.
  pose proof (try_configs_spec verify (configs user pass)) as H.
  destruct (try_configs verify (configs user pass)) as [[c|] enabled].
  - destruct H as (He & Hv & before & after & Hcs & Hb).
    assert (Hin : In c (configs user pass)).
    { rewrite Hcs. apply in_elt. }
    assert (Hc : auth_user c = user /\ auth_pass c = pass /\
                 (port c = 587 \/ port c = 465 \/ port c = 25)).
    { cbn [configs In] in Hin.
      destruct Hin as [<- | [<- | [<- | []]]]; cbn [auth_user auth_pass port];
        auto. }
    destruct Hc as (Eu & Ep & Hport). cbv beta iota. rewrite Eu, Ep.
    split; [exact He|]. split; [exact Hv|].
    split; [reflexivity|]. split; [intros E; rewrite E in Hu; discriminate|].
    split; [reflexivity|]. split; [intros E; rewrite E in Hp; discriminate|].
    split; [exact Hport|]. exists before, after. auto.
  - destruct H as [He Hall]. auto.
Qed.

(** ** The validity window *)

(** X29: a code issued by the first application at time [t] is good up
    to and including [t + 300000] ms: submitted by then it is answered
    with Success, submitted one millisecond later or more it is
    answered with Expired; either way the record is gone afterwards. *)
Theorem validity_window
    (w w' : Env) (email : jsstring) (st : gmap jsstring OtpRecord) :
  regex_test emailRegex email = true ->
  let st' := snd (send_otp w email st) in
  let code := generateOTP (int_draw w) in
  (now w' <= now w + 300000 ->
   verify_otp w' email code st'
     = (Success (hex (randomBytes 32 (byte_draw w'))), delete email st)) /\
  (now w' > now w + 300000 ->
   verify_otp w' email code st' = (Expired, delete email st)).
Proof.
  intros Hfmt st' code. subst st'.
  pose proof (email_format_nonempty email Hfmt) as He.
  pose proof (generateOTP_nonempty (int_draw w)) as Hc. fold code in Hc.
  rewrite send_step by exact Hfmt. cbn [snd]. fold code.
  set (r := {| otp := code; expiresAt := now w + 300000; attempts := 0 |}).
  assert (Hr : <[email := r]> st !! email = Some r) by apply lookup_insert_eq.
  split; intros Hnow.
  - rewrite (verify_step_match w' email code _ He Hc r Hr);
      cbn [r expiresAt attempts otp];
      [rewrite delete_insert_eq; reflexivity | lia | lia | reflexivity].
  - rewrite (verify_step_expired w' email code _ He Hc r Hr);
      cbn [r expiresAt]; [rewrite delete_insert_eq; reflexivity | lia].
Qed.

Lemma validity_window_witness :
  verify_otp (env_at 300000 0) alice (generateOTP 23456)
      (snd (send_otp (env_at 0 23456) alice ∅))
    = (Success (hex (randomBytes 32 (byte_draw (env_at 300000 0)))),
       delete alice ∅) /\
  verify_otp (env_at 300001 0) alice (generateOTP 23456)
      (snd (send_otp (env_at 0 23456) alice ∅))
    = (Expired, delete alice ∅).
Proof.
  split.
  - apply (validity_window (env_at 0 23456) (env_at 300000 0) alice ∅).
    + vm_compute. reflexivity.
    + vm_compute. discriminate.
  - apply (validity_window (env_at 0 23456) (env_at 300001 0) alice ∅).
    + vm_compute. reflexivity.
    + vm_compute. reflexivity.
Defined.
